(** * Odoo to BigQuery sync: a shallow embedding of [main.py]

    The development follows the layout of the script: Python values and the
    few built-ins the script relies on, the sanitizer, the CREATE TABLE
    generator, the external collaborators (Odoo, BigQuery, the checkpoint
    store) seen as a call log with oracles, and last the batch loop of
    [run_sync]. *)

From Stdlib Require Import ZArith Lia Ascii String.
From Stdlib Require Import Floats.SpecFloat.
From stdpp Require Import base list gmap sets strings pretty.

Local Open Scope Z_scope.
Set Warnings "-register-all,-clear-no-such-hyp".

(** ** Python values *)

(** Field values of an Odoo record after XML-RPC decoding. A dict is kept as
    the list of its items in insertion order, which is the order Python
    iterates in. Strings are sequences of code points below 256; a float is
    its IEEE 754 double, of which the script only asks the type and the
    truth value. *)
Inductive pyvalue : Type :=
| VNone
| VBool (b : bool)
| VInt (n : Z)
| VFloat (x : spec_float)
| VStr (s : string)
| VList (l : list pyvalue)
| VDict (d : list (string * pyvalue)).

Definition pydict : Type := list (string * pyvalue).

Inductive pytype : Type :=
| TNoneType | TBool | TInt | TFloat | TStr | TList | TDict.

Definition type_of (v : pyvalue) : pytype :=
  match v with
  | VNone => TNoneType
  | VBool _ => TBool
  | VInt _ => TInt
  | VFloat _ => TFloat
  | VStr _ => TStr
  | VList _ => TList
  | VDict _ => TDict
  end.

Definition pytype_eqb (a b : pytype) : bool :=
  match a, b with
  | TNoneType, TNoneType | TBool, TBool | TInt, TInt | TFloat, TFloat
  | TStr, TStr | TList, TList | TDict, TDict => true
  | _, _ => false
  end.

(** [bool] is a subclass of [int] in Python; there is no other subclass
    relation among the seven types. *)
Definition issubclass (a b : pytype) : bool :=
  pytype_eqb a b ||
  match a, b with
  | TBool, TInt => true
  | _, _ => false
  end.

Definition isinstance (v : pyvalue) (t : pytype) : bool :=
  issubclass (type_of v) t.

(** [isinstance(value, (list, dict))] *)
Definition isinstance_list_dict (v : pyvalue) : bool :=
  isinstance v TList || isinstance v TDict.

(** [value is None] *)
Definition is_None (v : pyvalue) : bool :=
  match v with
  | VNone => true
  | _ => false
  end.

(** Truth value of a Python object, as [if value] and [not value] see it. *)
Definition truthy (v : pyvalue) : bool :=
  match v with
  | VNone => false
  | VBool b => b
  | VInt n => negb (n =? 0)
  | VFloat x => match x with S754_zero _ => false | _ => true end
  | VStr s => negb (String.eqb s "")
  | VList l => match l with [] => false | _ :: _ => true end
  | VDict d => match d with [] => false | _ :: _ => true end
  end.

(** ** Strings *)

Definition dquote : ascii := ascii_of_nat 34.
Definition backslash : ascii := ascii_of_nat 92.
Definition newline : string := String (ascii_of_nat 10) "".

(** [str.isspace] on one code point below 256: TAB..CR, FS..US, space, NEL
    and the no-break space. *)
Definition is_space (c : ascii) : bool :=
  let n := nat_of_ascii c in
  ((9 <=? n) && (n <=? 13) || (28 <=? n) && (n <=? 32) ||
   (n =? 133) || (n =? 160))%nat.

Fixpoint lstrip (s : string) : string :=
  match s with
  | EmptyString => EmptyString
  | String c s' => if is_space c then lstrip s' else s
  end.

(** Drops trailing whitespace: a character is kept when it is not a space or
    when something remains after it. *)
Fixpoint rstrip (s : string) : string :=
  match s with
  | EmptyString => EmptyString
  | String c s' =>
      match rstrip s' with
      | EmptyString => if is_space c then EmptyString else String c EmptyString
      | r => String c r
      end
  end.

(** [s.strip()] *)
Definition strip (s : string) : string := rstrip (lstrip s).

(** [sep.join(parts)] *)
Fixpoint join (sep : string) (parts : list string) : string :=
  match parts with
  | [] => ""
  | [p] => p
  | p :: rest => p +:+ sep +:+ join sep rest
  end.

(** [s.split(sep)] for a one-character separator: [cur] is the field being
    read, in reverse. *)
Fixpoint split_on_go (sep : ascii) (cur : list ascii) (s : string) : list string :=
  match s with
  | EmptyString => [string_of_list_ascii (rev cur)]
  | String c s' =>
      if Ascii.eqb c sep
      then string_of_list_ascii (rev cur) :: split_on_go sep [] s'
      else split_on_go sep (c :: cur) s'
  end.

Definition split_on (sep : ascii) (s : string) : list string :=
  split_on_go sep [] s.

(** [s.split()]: fields are the maximal runs of non-space characters. *)
Fixpoint split_ws_go (cur : list ascii) (s : string) : list string :=
  match s with
  | EmptyString =>
      match cur with
      | [] => []
      | _ => [string_of_list_ascii (rev cur)]
      end
  | String c s' =>
      if is_space c
      then match cur with
           | [] => split_ws_go [] s'
           | _ => string_of_list_ascii (rev cur) :: split_ws_go [] s'
           end
      else split_ws_go (c :: cur) s'
  end.

Definition split_ws (s : string) : list string := split_ws_go [] s.

(** [len(l)] *)
Definition len {A} (l : list A) : Z := Z.of_nat (length l).

(** Truth value of a list: [if l] *)
Definition nonempty {A} (l : list A) : bool :=
  match l with
  | [] => false
  | _ :: _ => true
  end.

(** ** [json.dumps] with its default arguments *)

Definition hex_digit (n : nat) : ascii :=
  ascii_of_nat (if (n <? 10)%nat then 48 + n else 87 + n)%nat.

(** One code point inside a JSON string literal ([ensure_ascii=True]): the
    seven short escapes, printable ASCII as it is, everything else as a
    four-digit [\u] escape. *)
Definition json_escape_char (c : ascii) : string :=
  let n := nat_of_ascii c in
  if (n =? 34)%nat then String backslash (String dquote "")
  else if (n =? 92)%nat then String backslash (String backslash "")
  else if (n =? 8)%nat then String backslash "b"
  else if (n =? 12)%nat then String backslash "f"
  else if (n =? 10)%nat then String backslash "n"
  else if (n =? 13)%nat then String backslash "r"
  else if (n =? 9)%nat then String backslash "t"
  else if ((32 <=? n) && (n <=? 126))%nat then String c ""
  else String backslash
         ("u00" +:+ String (hex_digit (n / 16)) (String (hex_digit (n mod 16)) "")).

Fixpoint json_escape (s : string) : string :=
  match s with
  | EmptyString => EmptyString
  | String c s' => json_escape_char c +:+ json_escape s'
  end.

Definition json_string (s : string) : string :=
  String dquote (json_escape s +:+ String dquote "").

Section Json.

(** The text the encoder prints for a float ([float.__repr__], or [NaN]
    and [Infinity]) belongs to the interpreter; the encoder only places it. *)
Variable float_repr : spec_float → string.

Fixpoint json_dumps (v : pyvalue) : string :=
  match v with
  | VNone => "null"
  | VBool b => if b then "true" else "false"
  | VInt n => pretty n
  | VFloat x => float_repr x
  | VStr s => json_string s
  | VList l => "[" +:+ join ", " (map json_dumps l) +:+ "]"
  | VDict d =>
      "{" +:+
      join ", " (map (λ kv, json_string (fst kv) +:+ ": " +:+ json_dumps (snd kv)) d)
      +:+ "}"
  end.

(** ** The sanitizer *)

(** The body of the loop of [sanitize_record_for_bq]: the value stored
    under [key] for an input [value]. The branches are the [if]/[elif]
    chain of the source, in its order. *)
Definition sanitize_value (value : pyvalue) : pyvalue :=
  if is_None value then VNone
  else if isinstance_list_dict value && negb (truthy value) then VNone
  else if isinstance_list_dict value then VStr (json_dumps value)
  else if isinstance value TBool then
    VStr (if truthy value then "true" else "false")
  else if isinstance value TStr &&
          match value with
          | VStr s => String.eqb (strip s) ""
          | _ => false
          end
  then VNone
  else value.

Definition sanitize_record_for_bq (record : pydict) : pydict :=
  map (λ kv, (fst kv, sanitize_value (snd kv))) record.

End Json.

(** ** Schema inference *)

Definition python_type_to_bq (value : pyvalue) : string :=
  if is_None value then "STRING"
  else if isinstance value TBool then "STRING"
  else if isinstance value TInt then "INTEGER"
  else if isinstance value TFloat then "FLOAT64"
  else if isinstance value TList then "STRING"
  else if isinstance value TDict then "STRING"
  else "STRING".

Definition ddl_field (kv : string * pyvalue) : string :=
  "  " +:+ fst kv +:+ " " +:+ python_type_to_bq (snd kv).

Definition generate_create_table_sql (table_id : string) (record : pydict)
  : option string :=
  match split_on "." table_id with
  | [project_id; dataset_id; table_name] =>
      let fields := map ddl_field record in
      let sql := "CREATE TABLE `" +:+ project_id +:+ "." +:+ dataset_id +:+ "."
                 +:+ table_name +:+ "` (" +:+ newline in
      let sql := sql +:+ join ("," +:+ newline) fields in
      let sql := sql +:+ newline +:+ ");" in
      Some sql
  | _ => None
  end.

(** ** Records, configuration and the outside world *)

(** A record as [search_read] returns it: Odoo always sends the integer
    [id] first, followed by the other fields. *)
Record record : Type := {
  rec_id : Z;
  rec_rest : pydict
}.

(** The dict the script sees. *)
Definition items (r : record) : pydict := ("id", VInt (rec_id r)) :: rec_rest r.

(** [d.get(key)] *)
Fixpoint dict_get (key : string) (d : pydict) : option pyvalue :=
  match d with
  | [] => None
  | (k, v) :: d' => if String.eqb k key then Some v else dict_get key d'
  end.

(** The module-level settings read from the environment. *)
Record config : Type := {
  ODOO_MODEL : string;
  BQ_TABLE_ID : string;
  BATCH_LIMIT : Z;
  BUFFER_MINUTES : Z;
  LOOKBACK_DAYS : Z;
  DELETE_SYNCED_RECORDS : bool
}.

(** Instants are counted in seconds, the resolution of the [strftime]
    format handed to Odoo. *)
Record date_filter : Type := {
  df_from : Z;
  df_to : Z
}.

(** One entry of the list [insert_rows_json] returns. *)
Record insert_error : Type := {
  err_index : nat;
  err_messages : list string
}.

(** Calls that leave the process, in the order they are made. Console
    lines other than the generated SQL carry no state and are left out. *)
Inductive event : Type :=
| GetTable (table_id : string)
| SearchReadSample
| QueryIds (table_id : string)
| SearchRead (offset limit : Z) (window : option date_filter)
| InsertRowsJson (table_id : string) (rows : list pydict) (row_ids : list string)
| Unlink (ids : list Z)
| WriteCheckpoint (ts : Z)
| Print (line : string).

Definition trace : Type := list event.

Inductive outcome (A : Type) : Type :=
| Returns (a : A)
| Raises.
Arguments Returns {A} a.
Arguments Raises {A}.

(** The collaborators. Each answer may depend on everything that happened
    before the call, so deletions may change later pages and the sink may
    fail at any time. *)
Record world : Type := {
  bq_get_table : trace → outcome unit;
  odoo_search_read_sample : trace → outcome (list record);
  bq_query_ids : trace → outcome (list Z);
  clock_now : trace → Z;
  odoo_search_read : trace → Z → Z → option date_filter → outcome (list record);
  bq_insert_rows_json : trace → list pydict → list string → outcome (list insert_error);
  odoo_unlink : trace → list Z → outcome unit
}.

(** ** A monad for the call log *)

Definition M (A : Type) : Type := trace → A * trace.

#[global] Instance M_ret : MRet M := λ A a tr, (a, tr).

#[global] Instance M_bind : MBind M :=
  λ A B k m tr, let (a, tr') := m tr in k a tr'.

(** Performs a call: the oracle answers from the history, and the call is
    logged. *)
Definition call {A} (ev : event) (answer : trace → A) : M A :=
  λ tr, (answer tr, tr ++ [ev]).

Definition print (line : string) : M unit := call (Print line) (λ _, tt).

(** [enumerate(l)] *)
Fixpoint enumerate_from {A} (i : nat) (l : list A) : list (nat * A) :=
  match l with
  | [] => []
  | x :: l' => (i, x) :: enumerate_from (S i) l'
  end.

Definition enumerate {A} (l : list A) : list (nat * A) := enumerate_from 0 l.

(** ** The engine *)

(** The locals of [run_sync] that live across iterations of its loop. *)
Record sync_state : Type := {
  offset : Z;
  total_fetched : Z;
  total_inserted : Z;
  total_skipped : Z;
  total_deleted : Z;
  total_failed : Z;
  existing_ids : gset Z
}.

(** How an iteration of [while True] ends: falls through to the next one,
    or leaves by one of the two [break]s. *)
Inductive control : Type :=
| Continue
| StopEmptyPage
| StopSafetyCap.

(** [run_sync] either returns from the missing-table branch or reaches the
    summary with the final counters. *)
Inductive run_result : Type :=
| Bootstrapped
| Synced (why : control) (st : sync_state).

Section Engine.

Variable float_repr : spec_float → string.
Variable cfg : config.
Variable w : world.

(** Both backends (local file, GCS object) store the one timestamp. *)
Definition update_last_synced_time (ts : Z) : M unit :=
  call (WriteCheckpoint ts) (λ _, tt).

Definition get_existing_ids : M (gset Z) :=
  res ← call (QueryIds (BQ_TABLE_ID cfg)) (bq_query_ids w);
  match res with
  | Returns rows => mret (list_to_set rows)
  | Raises => mret ∅
  end.

Definition fetch_records_batch (offset limit : Z) (window : option date_filter)
  : M (list record) :=
  res ← call (SearchRead offset limit window)
             (λ tr, odoo_search_read w tr offset limit window);
  match res with
  | Returns records => mret records
  | Raises => mret []
  end.

(** [f"{ODOO_MODEL}_{record['id']}"] on a sanitized record, whose [id]
    is still the integer of the source record. *)
Definition insert_id (record : pydict) : string :=
  ODOO_MODEL cfg +:+ "_" +:+
  match dict_get "id" record with
  | Some (VInt n) => pretty n
  | _ => ""
  end.

(** [for r in rs: existing_ids.add(r['id'])] *)
Definition add_ids (existing : gset Z) (rs : list record) : gset Z :=
  foldl (λ s r, {[rec_id r]} ∪ s) existing rs.

(** The deletion block, written twice in the source (after a partial and
    after a full success) with the same text; returns [total_deleted]. *)
Definition delete_from_odoo (inserted_count : Z) (synced : list record)
    (deleted : Z) : M Z :=
  if DELETE_SYNCED_RECORDS cfg && (inserted_count >? 0) then
    let ids_to_delete := map rec_id synced in
    res ← call (Unlink ids_to_delete) (λ tr, odoo_unlink w tr ids_to_delete);
    match res with
    | Returns _ => mret (deleted + len ids_to_delete)
    | Raises => mret deleted
    end
  else mret deleted.

(** [sanitized_records = [sanitize_record_for_bq(r) for r in new_records]] *)
Definition sanitized_of (new_records : list record) : list pydict :=
  map (λ r, sanitize_record_for_bq float_repr (items r)) new_records.

(** [rows_to_insert]: each sanitized record with its [insertId]. *)
Definition rows_to_insert_of (sanitized_records : list pydict)
  : list (pydict * string) :=
  map (λ record, (record, insert_id record)) sanitized_records.

(** [failed_indices = {err['index'] for err in errors}] *)
Definition failed_indices_of (errors : list insert_error) : gset nat :=
  list_to_set (map err_index errors).

(** [[r for i, r in enumerate(new_records) if i not in failed_indices]] *)
Definition succeeded_of (failed_indices : gset nat) (new_records : list record)
  : list record :=
  map snd (filter (λ ir, fst ir ∉ failed_indices) (enumerate new_records)).

(** The body of [if new_records:]. Only [insert_rows_json] can raise
    inside the [try]; the report printed for the first ten errors reads
    the page and changes nothing. *)
Definition insert_new_records (st : sync_state) (new_records : list record)
  : M sync_state :=
  let sanitized_records := sanitized_of new_records in
  let rows_to_insert := rows_to_insert_of sanitized_records in
  let rows := map fst rows_to_insert in
  let row_ids := map snd rows_to_insert in
  res ← call (InsertRowsJson (BQ_TABLE_ID cfg) rows row_ids)
             (λ tr, bq_insert_rows_json w tr rows row_ids);
  match res with
  | Raises => mret st
  | Returns errors =>
      if nonempty errors then
        let failed_indices := failed_indices_of errors in
        let failed_count := Z.of_nat (size failed_indices) in
        let success_count := len sanitized_records - failed_count in
        let succeeded_records := succeeded_of failed_indices new_records in
        let existing := add_ids (existing_ids st) succeeded_records in
        let inserted_count := success_count in
        let failed := total_failed st + failed_count in
        deleted ← delete_from_odoo inserted_count succeeded_records (total_deleted st);
        mret {| offset := offset st;
                total_fetched := total_fetched st;
                total_inserted := total_inserted st + inserted_count;
                total_skipped := total_skipped st;
                total_deleted := deleted;
                total_failed := failed;
                existing_ids := existing |}
      else
        let inserted_count := len sanitized_records in
        let existing := add_ids (existing_ids st) new_records in
        deleted ← delete_from_odoo inserted_count new_records (total_deleted st);
        mret {| offset := offset st;
                total_fetched := total_fetched st;
                total_inserted := total_inserted st + inserted_count;
                total_skipped := total_skipped st;
                total_deleted := deleted;
                total_failed := total_failed st;
                existing_ids := existing |}
  end.

(** [new_records = [r for r in batch if r['id'] not in existing_ids]] *)
Definition new_records_of (existing : gset Z) (batch : list record) : list record :=
  filter (λ r, rec_id r ∉ existing) batch.

(** The counters after [total_fetched += len(batch)] and
    [total_skipped += skipped]. *)
Definition counted (st : sync_state) (batch : list record) : sync_state :=
  let new_records := new_records_of (existing_ids st) batch in
  let skipped := len batch - len new_records in
  {| offset := offset st;
     total_fetched := total_fetched st + len batch;
     total_inserted := total_inserted st;
     total_skipped := total_skipped st + skipped;
     total_deleted := total_deleted st;
     total_failed := total_failed st;
     existing_ids := existing_ids st |}.

(** [offset += BATCH_LIMIT] *)
Definition advanced (st : sync_state) : sync_state :=
  {| offset := offset st + BATCH_LIMIT cfg;
     total_fetched := total_fetched st;
     total_inserted := total_inserted st;
     total_skipped := total_skipped st;
     total_deleted := total_deleted st;
     total_failed := total_failed st;
     existing_ids := existing_ids st |}.

(** One iteration of [while True]. *)
Definition loop_body (window : option date_filter) (st : sync_state)
  : M (control * sync_state) :=
  batch ← fetch_records_batch (offset st) (BATCH_LIMIT cfg) window;
  if negb (nonempty batch) then mret (StopEmptyPage, st)
  else
    let new_records := new_records_of (existing_ids st) batch in
    let st1 := counted st batch in
    st2 ← (if nonempty new_records then insert_new_records st1 new_records
           else mret st1);
    let st3 := advanced st2 in
    if offset st3 >=? BATCH_LIMIT cfg * 100 then mret (StopSafetyCap, st3)
    else mret (Continue, st3).

(** [while True]: [None] when the fuel runs out before a [break]. *)
Fixpoint while_true (window : option date_filter) (fuel : nat) (st : sync_state)
  : M (option (control * sync_state)) :=
  match fuel with
  | O => mret None
  | S fuel' =>
      r ← loop_body window st;
      match fst r with
      | Continue => while_true window fuel' (snd r)
      | _ => mret (Some r)
      end
  end.

(** The [except] branch of step 1: print the CREATE TABLE statement
    inferred from one sample record, in both layouts. *)
Definition bootstrap : M unit :=
  res ← call SearchReadSample (odoo_search_read_sample w);
  match res with
  | Raises => mret tt
  | Returns sample =>
      match sample with
      | [] => mret tt
      | first :: _ =>
          match generate_create_table_sql (BQ_TABLE_ID cfg) (items first) with
          | Some create_sql =>
              print create_sql;;
              print (join " " (split_ws create_sql))
          | None => mret tt
          end
      end
  end.

(** Step 3: the date range. *)
Definition date_window : M (option date_filter) :=
  if negb (LOOKBACK_DAYS cfg =? -1) then
    now ← (λ tr, (clock_now w tr, tr));
    mret (Some {| df_from := now - LOOKBACK_DAYS cfg * 86400;
                  df_to := now - BUFFER_MINUTES cfg * 60 |})
  else mret None.

Definition initial_state (existing : gset Z) : sync_state :=
  {| offset := 0; total_fetched := 0; total_inserted := 0; total_skipped := 0;
     total_deleted := 0; total_failed := 0; existing_ids := existing |}.

Definition run_sync (fuel : nat) : M (option run_result) :=
  table ← call (GetTable (BQ_TABLE_ID cfg)) (bq_get_table w);
  match table with
  | Raises => bootstrap;; mret (Some Bootstrapped)
  | Returns _ =>
      existing ← get_existing_ids;
      window ← date_window;
      r ← while_true window fuel (initial_state existing);
      mret (match r with
            | Some (why, st) => Some (Synced why st)
            | None => None
            end)
  end.

(** The state after at most [n] iterations of the loop: what the [n]-th
    pass leaves behind, or the state at the [break] if one came earlier. *)
Fixpoint iterate_body (window : option date_filter) (n : nat) (st : sync_state)
  : M (control * sync_state) :=
  match n with
  | O => mret (Continue, st)
  | S n' =>
      r ← iterate_body window n' st;
      match fst r with
      | Continue => loop_body window (snd r)
      | _ => mret r
      end
  end.

(** What the bulk insert of the page fetched from [st] answers, when the
    page leads to one. *)
Definition page_new_records (window : option date_filter) (st : sync_state)
    (tr : trace) : list record :=
  new_records_of (existing_ids st)
    (fst (fetch_records_batch (offset st) (BATCH_LIMIT cfg) window tr)).

Definition page_insert_answer (window : option date_filter) (st : sync_state)
    (tr : trace) : option (outcome (list insert_error)) :=
  let new_records := page_new_records window st tr in
  let rows_to_insert := rows_to_insert_of (sanitized_of new_records) in
  if nonempty new_records then
    Some (bq_insert_rows_json w
            (tr ++ [SearchRead (offset st) (BATCH_LIMIT cfg) window])
            (map fst rows_to_insert) (map snd rows_to_insert))
  else None.

(** A run that found the table enters the loop after two calls, with
    the ids the destination listed and the window of step 3. *)
Definition entry_trace : trace :=
  [GetTable (BQ_TABLE_ID cfg); QueryIds (BQ_TABLE_ID cfg)].

Definition entry_existing : gset Z :=
  fst (get_existing_ids [GetTable (BQ_TABLE_ID cfg)]).

Definition entry_window : option date_filter := fst (date_window entry_trace).

(** The run after at most [n] iterations of its loop. *)
Definition run_state (n : nat) : control * sync_state * trace :=
  iterate_body entry_window n (initial_state entry_existing) entry_trace.

(** The events a page can add to the log after its fetch. *)
Definition insert_call (new_records : list record) : event :=
  let rows_to_insert := rows_to_insert_of (sanitized_of new_records) in
  InsertRowsJson (BQ_TABLE_ID cfg) (map fst rows_to_insert) (map snd rows_to_insert).

Definition unlink_events (inserted_count : Z) (synced : list record) : list event :=
  if DELETE_SYNCED_RECORDS cfg && (inserted_count >? 0)
  then [Unlink (map rec_id synced)]
  else [].

(** The state and the events [insert_new_records] leaves, given what the
    sink answered and the deletion total that results. *)
Definition reconciled (st : sync_state) (new_records : list record)
    (answer : outcome (list insert_error)) (deleted : Z) : sync_state :=
  match answer with
  | Raises => st
  | Returns errors =>
      let failed_indices := failed_indices_of errors in
      let failed_count := Z.of_nat (size failed_indices) in
      {| offset := offset st;
         total_fetched := total_fetched st;
         total_inserted :=
           total_inserted st +
           (if nonempty errors then len new_records - failed_count
            else len new_records);
         total_skipped := total_skipped st;
         total_deleted := deleted;
         total_failed :=
           total_failed st + (if nonempty errors then failed_count else 0);
         existing_ids :=
           add_ids (existing_ids st)
             (if nonempty errors then succeeded_of failed_indices new_records
              else new_records) |}
  end.

Definition page_events (new_records : list record)
    (answer : outcome (list insert_error)) : list event :=
  insert_call new_records ::
  match answer with
  | Raises => []
  | Returns errors =>
      let failed_indices := failed_indices_of errors in
      let failed_count := Z.of_nat (size failed_indices) in
      if nonempty errors
      then unlink_events (len new_records - failed_count)
             (succeeded_of failed_indices new_records)
      else unlink_events (len new_records) new_records
  end.

(** How a page with a non-empty batch relates the counted state [st1] to
    the state [st2] before the offset moves, and which events it logs
    after the fetch. *)
Definition page_step (st1 : sync_state) (new_records : list record)
    (answer : option (outcome (list insert_error)))
    (st2 : sync_state) (evs : list event) : Prop :=
  match answer with
  | None => st2 = st1 ∧ evs = []
  | Some a =>
      ∃ deleted, st2 = reconciled st1 new_records a deleted
                 ∧ evs = page_events new_records a
  end.

(** The safety-limit test at the end of the loop body. *)
Definition cap_control (next_offset : Z) : control :=
  if next_offset >=? BATCH_LIMIT cfg * 100 then StopSafetyCap else Continue.

End Engine.

(** ** Reading a call log *)

Definition is_search_read (ev : event) : bool :=
  match ev with
  | SearchRead _ _ _ => true
  | _ => false
  end.

Definition is_write_checkpoint (ev : event) : bool :=
  match ev with
  | WriteCheckpoint _ => true
  | _ => false
  end.

Definition is_insert (ev : event) : bool :=
  match ev with
  | InsertRowsJson _ _ _ => true
  | _ => false
  end.

Definition is_unlink (ev : event) : bool :=
  match ev with
  | Unlink _ => true
  | _ => false
  end.

(** The page fetches, in order. *)
Definition fetch_calls (tr : trace) : list event := List.filter is_search_read tr.

Definition checkpoint_writes (tr : trace) : list event :=
  List.filter is_write_checkpoint tr.

(** Every id handed to [unlink]. *)
Definition deleted_ids (tr : trace) : list Z :=
  flat_map (λ ev, match ev with Unlink ids => ids | _ => [] end) tr.

(** Every row handed to [insert_rows_json]. *)
Definition rows_sent (tr : trace) : list pydict :=
  flat_map (λ ev, match ev with InsertRowsJson _ rows _ => rows | _ => [] end) tr.

(** Records of the page accounted for by the three outcome counters. *)
Definition accounted (st : sync_state) : Z :=
  total_inserted st + total_failed st + total_skipped st.

(** ** The rules as the specification words them *)

Fixpoint all_space (s : string) : bool :=
  match s with
  | EmptyString => true
  | String c s' => is_space c && all_space s'
  end.

(** The sanitizer's checks, first match wins: null; empty list or object;
    non-empty list or object; boolean; empty or whitespace-only string. A
    value no rule matches passes through. *)
Definition sanitizer_rules (float_repr : spec_float → string)
  : list ((pyvalue → bool) * (pyvalue → pyvalue)) :=
  [ (λ v, match v with VNone => true | _ => false end,
     λ _, VNone);
    (λ v, match v with VList [] | VDict [] => true | _ => false end,
     λ _, VNone);
    (λ v, match v with VList (_ :: _) | VDict (_ :: _) => true | _ => false end,
     λ v, VStr (json_dumps float_repr v));
    (λ v, match v with VBool _ => true | _ => false end,
     λ v, match v with VBool true => VStr "true" | _ => VStr "false" end);
    (λ v, match v with VStr s => all_space s | _ => false end,
     λ _, VNone) ].

Definition first_match (rules : list ((pyvalue → bool) * (pyvalue → pyvalue)))
    (v : pyvalue) : pyvalue :=
  match List.find (λ rule, fst rule v) rules with
  | Some rule => snd rule v
  | None => v
  end.

(** The type inference table of the bootstrap step. *)
Definition inferred_type (v : pyvalue) : string :=
  match v with
  | VNone => "STRING"
  | VBool _ => "STRING"
  | VInt _ => "INTEGER"
  | VFloat _ => "FLOAT64"
  | VList _ | VDict _ => "STRING"
  | VStr _ => "STRING"
  end.

(** ** Settings computed at import *)

(** [c in s] *)
Fixpoint contains_char (c : ascii) (s : string) : bool :=
  match s with
  | EmptyString => false
  | String x s' => Ascii.eqb x c || contains_char c s'
  end.

(** Occurrences of a character. *)
Fixpoint count_char (c : ascii) (s : string) : nat :=
  match s with
  | EmptyString => 0
  | String x s' => ((if Ascii.eqb x c then 1 else 0) + count_char c s')%nat
  end.

(** [BQ_TABLE_ID.split('.')[0] if '.' in BQ_TABLE_ID else None] *)
Definition BQ_PROJECT_ID (table_id : string) : option string :=
  if contains_char "." table_id
  then Some (hd "" (split_on "." table_id))
  else None.

(** [str.lower] on one code point below 256: the ASCII capitals and the
    Latin-1 capitals (all of 192..222 but the multiplication sign). *)
Definition lower_char (c : ascii) : ascii :=
  let n := nat_of_ascii c in
  if ((65 <=? n) && (n <=? 90)
      || (192 <=? n) && (n <=? 222) && negb (n =? 215))%nat
  then ascii_of_nat (n + 32)
  else c.

Fixpoint lower (s : string) : string :=
  match s with
  | EmptyString => EmptyString
  | String c s' => String (lower_char c) (lower s')
  end.

(** [os.environ.get("DELETE_SYNCED_RECORDS", "false").lower() == "true"] *)
Definition delete_flag (setting : option string) : bool :=
  String.eqb (lower (default "false" setting)) "true".

(** ** The single-shot helper *)

Section SingleShot.

Variable cfg : config.
Variable w : world.

(** [sync_to_bigquery]: one bulk insert of the records as they are, without
    [row_ids] (the log shows the empty list for them); the answer is the
    verdict on the whole batch. *)
Definition sync_to_bigquery (records : list pydict) : M bool :=
  if negb (nonempty records) then mret true
  else
    errors ← call (InsertRowsJson (BQ_TABLE_ID cfg) records [])
                  (λ tr, bq_insert_rows_json w tr records []);
    match errors with
    | Returns errors => if nonempty errors then mret false else mret true
    | Raises => mret false
    end.

End SingleShot.

(** ** More readings of a call log *)

(** Every idempotency key handed to [insert_rows_json]. *)
Definition keys_sent (tr : trace) : list string :=
  flat_map (λ ev, match ev with InsertRowsJson _ _ row_ids => row_ids | _ => [] end) tr.

(** The lines a run printed. *)
Definition printed (tr : trace) : list string :=
  flat_map (λ ev, match ev with Print line => [line] | _ => [] end) tr.

(** Calls other than printing. *)
Definition calls_made (tr : trace) : list event :=
  List.filter (λ ev, match ev with Print _ => false | _ => true end) tr.

(** Whether a string holds a whitespace character. *)
Fixpoint has_space (s : string) : bool :=
  match s with
  | EmptyString => false
  | String c s' => is_space c || has_space s'
  end.

(** A token of [split()]: not empty, no whitespace inside. *)
Definition is_token (s : string) : bool :=
  negb (String.eqb s "") && negb (has_space s).

(** The characters of a string. *)
Definition chars (s : string) : list ascii := list_ascii_of_string s.

(** The kinds of value a sanitized record may hold. *)
Definition is_scalar (v : pyvalue) : bool :=
  match v with
  | VNone | VInt _ | VFloat _ => true
  | VStr s => negb (all_space s)
  | VBool _ | VList _ | VDict _ => false
  end.

(** ** Sample configurations and worlds *)

Definition sample_float_repr (x : spec_float) : string := "0.0".

Definition sample_config (batch_limit : Z) : config :=
  {| ODOO_MODEL := "sale.order";
     BQ_TABLE_ID := "proj.sales.orders";
     BATCH_LIMIT := batch_limit;
     BUFFER_MINUTES := 2;
     LOOKBACK_DAYS := -1;
     DELETE_SYNCED_RECORDS := true |}.

Definition sample_order (id : Z) : record :=
  {| rec_id := id;
     rec_rest := [("name", VStr "SO"); ("active", VBool false); ("tags", VList [])] |}.

(** Three orders at the source, an empty destination that accepts every
    row. *)
Definition world_three_orders : world :=
  {| bq_get_table := λ _, Returns tt;
     odoo_search_read_sample := λ _, Returns [sample_order 1];
     bq_query_ids := λ _, Returns [];
     clock_now := λ _, 1700000000;
     odoo_search_read := λ _ offset _ _,
       if offset =? 0 then Returns [sample_order 1; sample_order 2; sample_order 3]
       else Returns [];
     bq_insert_rows_json := λ _ _ _, Returns [];
     odoo_unlink := λ _ _, Returns tt |}.

(** The same source, with a sink that rejects the second row of a call. *)
Definition world_second_row_rejected : world :=
  {| bq_get_table := λ _, Returns tt;
     odoo_search_read_sample := λ _, Returns [sample_order 1];
     bq_query_ids := λ _, Returns [];
     clock_now := λ _, 1700000000;
     odoo_search_read := λ _ offset _ _,
       if offset =? 0 then Returns [sample_order 1; sample_order 2; sample_order 3]
       else Returns [];
     bq_insert_rows_json := λ _ _ _,
       Returns [ {| err_index := 1; err_messages := ["invalid"] |} ];
     odoo_unlink := λ _ _, Returns tt |}.

(** A source that always has one more order, and a sink whose bulk insert
    raises on every call. *)
Definition world_sink_down : world :=
  {| bq_get_table := λ _, Returns tt;
     odoo_search_read_sample := λ _, Returns [sample_order 1];
     bq_query_ids := λ _, Returns [];
     clock_now := λ _, 1700000000;
     odoo_search_read := λ _ offset _ _, Returns [sample_order (offset + 1)];
     bq_insert_rows_json := λ _ _ _, Raises;
     odoo_unlink := λ _ _, Returns tt |}.

(** No destination table yet; the sample record of the bootstrap scenario. *)
Definition bootstrap_sample : record :=
  {| rec_id := 5; rec_rest := [("active", VBool false); ("tags", VList [])] |}.

Definition world_no_table : world :=
  {| bq_get_table := λ _, Raises;
     odoo_search_read_sample := λ _, Returns [bootstrap_sample];
     bq_query_ids := λ _, Raises;
     clock_now := λ _, 1700000000;
     odoo_search_read := λ _ _ _ _, Returns [bootstrap_sample];
     bq_insert_rows_json := λ _ _ _, Returns [];
     odoo_unlink := λ _ _, Returns tt |}.

(** A source that cannot be reached. *)
Definition world_source_down : world :=
  {| bq_get_table := λ _, Returns tt;
     odoo_search_read_sample := λ _, Raises;
     bq_query_ids := λ _, Returns [];
     clock_now := λ _, 1700000000;
     odoo_search_read := λ _ _ _ _, Raises;
     bq_insert_rows_json := λ _ _ _, Returns [];
     odoo_unlink := λ _ _, Returns tt |}.

(** Three orders, and a sink that reports an error at a position no row of
    the call has. *)
Definition world_stray_error_index : world :=
  {| bq_get_table := λ _, Returns tt;
     odoo_search_read_sample := λ _, Returns [sample_order 1];
     bq_query_ids := λ _, Returns [];
     clock_now := λ _, 1700000000;
     odoo_search_read := λ _ offset _ _,
       if offset =? 0 then Returns [sample_order 1; sample_order 2; sample_order 3]
       else Returns [];
     bq_insert_rows_json := λ _ _ _,
       Returns [ {| err_index := 7; err_messages := ["invalid"] |} ];
     odoo_unlink := λ _ _, Returns tt |}.

(** Three orders that the destination already lists. *)
Definition world_already_synced : world :=
  {| bq_get_table := λ _, Returns tt;
     odoo_search_read_sample := λ _, Returns [sample_order 1];
     bq_query_ids := λ _, Returns [1; 2; 3];
     clock_now := λ _, 1700000000;
     odoo_search_read := λ _ offset _ _,
       if offset =? 0 then Returns [sample_order 1; sample_order 2; sample_order 3]
       else Returns [];
     bq_insert_rows_json := λ _ _ _, Returns [];
     odoo_unlink := λ _ _, Returns tt |}.

(** The sample settings with deletion after sync left off. *)
Definition sample_config_keep (batch_limit : Z) : config :=
  {| ODOO_MODEL := "sale.order";
     BQ_TABLE_ID := "proj.sales.orders";
     BATCH_LIMIT := batch_limit;
     BUFFER_MINUTES := 2;
     LOOKBACK_DAYS := -1;
     DELETE_SYNCED_RECORDS := false |}.

(** * Properties *)

(** ** Strings *)

Lemma lstrip_all_space (s : string) : all_space s = true → lstrip s = "".
Proof.
  induction s as [|c s IH]; simpl; [done|].
  intros [Hc Hs]%andb_prop. rewrite Hc. auto.
Qed.

Lemma lstrip_not_all_space (s : string) :
  all_space s = false →
  ∃ c s', lstrip s = String c s' ∧ is_space c = false.
Proof.
  induction s as [|c s IH]; simpl; [done|].
  destruct (is_space c) eqn:Hc; simpl; eauto.
Qed.

Lemma rstrip_head_kept (c : ascii) (s : string) :
  is_space c = false → rstrip (String c s) ≠ "".
Proof.
  intros Hc. simpl. destruct (rstrip s); [by rewrite Hc|done].
Qed.

(** [value.strip() == ''] holds exactly of the strings made of whitespace. *)
Lemma strip_eqb_empty (s : string) : String.eqb (strip s) "" = all_space s.
Proof.
  unfold strip. destruct (all_space s) eqn:Hs.
  - by rewrite lstrip_all_space.
  - destruct (lstrip_not_all_space s Hs) as (c & s' & -> & Hc).
    apply String.eqb_neq. by apply rstrip_head_kept.
Qed.

Lemma all_space_head (c : ascii) (s : string) :
  is_space c = false → all_space (String c s) = false.
Proof. intros Hc. simpl. by rewrite Hc. Qed.

Lemma append_assoc (a b c : string) : (a +:+ b) +:+ c = a +:+ (b +:+ c).
Proof.
  induction a as [|x a IH]; [done|].
  change (String x ((a +:+ b) +:+ c) = String x (a +:+ (b +:+ c))).
  by rewrite IH.
Qed.

(** ** Sanitizer *)

Section SanitizerFacts.

Variable float_repr : spec_float → string.

Local Abbreviation sanitize := (sanitize_value float_repr).

Lemma sanitize_none : sanitize VNone = VNone.
Proof. reflexivity. Qed.

Lemma sanitize_bool (b : bool) :
  sanitize (VBool b) = VStr (if b then "true" else "false").
Proof. by destruct b. Qed.

Lemma sanitize_int (n : Z) : sanitize (VInt n) = VInt n.
Proof. reflexivity. Qed.

Lemma sanitize_float (x : spec_float) : sanitize (VFloat x) = VFloat x.
Proof. reflexivity. Qed.

Lemma sanitize_str (s : string) :
  sanitize (VStr s) = if all_space s then VNone else VStr s.
Proof.
  unfold sanitize_value. simpl. by rewrite strip_eqb_empty.
Qed.

Lemma sanitize_list (l : list pyvalue) :
  sanitize (VList l) =
  match l with
  | [] => VNone
  | _ :: _ => VStr (json_dumps float_repr (VList l))
  end.
Proof. by destruct l. Qed.

Lemma sanitize_dict (d : pydict) :
  sanitize (VDict d) =
  match d with
  | [] => VNone
  | _ :: _ => VStr (json_dumps float_repr (VDict d))
  end.
Proof. by destruct d. Qed.

(** An encoded list or object opens with a bracket, so it is never blank. *)
Lemma json_container_not_blank (v : pyvalue) :
  isinstance_list_dict v = true → all_space (json_dumps float_repr v) = false.
Proof.
  destruct v; try discriminate; intros _; simpl; reflexivity.
Qed.

(** C3: the sanitizer computes, for every value, what the ordered rule
    list of the specification selects: null to null, an empty list or
    object to null, a non-empty list or object to its JSON text, a
    boolean to the string true or false, an empty or whitespace-only
    string to null, and every other value to itself. *)
Theorem sanitize_value_first_match (v : pyvalue) :
  sanitize v = first_match (sanitizer_rules float_repr) v.
Proof.
  destruct v as [| b | n | x | s | l | d].
  - reflexivity.
  - by destruct b.
  - reflexivity.
  - reflexivity.
  - rewrite sanitize_str. unfold first_match. simpl.
    by destruct (all_space s).
  - by destruct l.
  - by destruct d.
Qed.

(** C4: sanitizing a value twice gives the same result as sanitizing it
    once, for every string, integer, float, boolean, null, list and
    object. *)
Theorem sanitize_value_idempotent (v : pyvalue) :
  sanitize (sanitize v) = sanitize v.
Proof.
  destruct v as [| b | n | x | s | l | d].
  - reflexivity.
  - by destruct b.
  - reflexivity.
  - reflexivity.
  - rewrite sanitize_str. destruct (all_space s) eqn:Hs; [reflexivity|].
    by rewrite sanitize_str, Hs.
  - rewrite sanitize_list. destruct l as [|v l]; [reflexivity|].
    by rewrite sanitize_str, json_container_not_blank.
  - rewrite sanitize_dict. destruct d as [|kv d]; [reflexivity|].
    by rewrite sanitize_str, json_container_not_blank.
Qed.

(** The [id] a sanitized record carries is the integer of its source. *)
Lemma sanitized_id (r : record) :
  dict_get "id" (sanitize_record_for_bq float_repr (items r)) = Some (VInt (rec_id r)).
Proof. reflexivity. Qed.

End SanitizerFacts.

(** The sanitizer laws listed with the testable properties. *)
Example sanitize_empty_object :
  sanitize_value sample_float_repr (VDict []) = VNone.
Proof. reflexivity. Qed.

Example sanitize_int_list :
  sanitize_value sample_float_repr (VList [VInt 1; VInt 2]) = VStr "[1, 2]".
Proof. reflexivity. Qed.

Example sanitize_true : sanitize_value sample_float_repr (VBool true) = VStr "true".
Proof. reflexivity. Qed.

Example sanitize_empty_string : sanitize_value sample_float_repr (VStr "") = VNone.
Proof. reflexivity. Qed.

Example sanitize_blank_string : sanitize_value sample_float_repr (VStr "  ") = VNone.
Proof. reflexivity. Qed.

Example sanitize_order :
  sanitize_record_for_bq sample_float_repr (items (sample_order 7))
  = [("id", VInt 7); ("name", VStr "SO"); ("active", VStr "false"); ("tags", VNone)].
Proof. reflexivity. Qed.

(** ** Schema inference *)

Lemma python_type_to_bq_rule (v : pyvalue) : python_type_to_bq v = inferred_type v.
Proof. by destruct v. Qed.

(** ** Lists and index sets *)

Lemma enumerate_from_fst {A} (s : nat) (l : list A) :
  map fst (enumerate_from s l) = seq s (length l).
Proof.
  revert s. induction l as [|x l IH]; intros s; simpl; [done|]. by rewrite IH.
Qed.

Lemma enumerate_from_lookup {A} (s : nat) (l : list A) (i : nat) (x : A) :
  (i, x) ∈ enumerate_from s l ↔ (s ≤ i)%nat ∧ l !! (i - s)%nat = Some x.
Proof.
  revert s. induction l as [|y l IH]; intros s; simpl.
  - split; [by intros ?%elem_of_nil | by intros [_ ?]].
  - rewrite elem_of_cons, IH. split.
    + intros [[= -> ->] | [Hle Hl]].
      * split; [lia|]. by replace (s - s)%nat with 0%nat by lia.
      * split; [lia|]. by replace (i - s)%nat with (S (i - S s)) by lia.
    + intros [Hle Hl]. destruct (decide (i = s)) as [-> | Hne].
      * left. replace (s - s)%nat with 0%nat in Hl by lia. simpl in Hl. congruence.
      * right. split; [lia|].
        by replace (i - s)%nat with (S (i - S s)) in Hl by lia.
Qed.

Lemma length_filter_split {A} (P : A → Prop) `{!∀ x, Decision (P x)} (l : list A) :
  (length (filter P l) + length (filter (λ x, ¬ P x) l) = length l)%nat.
Proof.
  induction l as [|x l IH]; [done|].
  rewrite !filter_cons. destruct (decide (P x)), (decide (¬ P x)); simpl; try lia; tauto.
Qed.

Lemma length_filter_fst {A} (P : nat → Prop) `{!∀ i, Decision (P i)}
    (l : list (nat * A)) :
  length (filter (λ ir, P (fst ir)) l) = length (filter P (map fst l)).
Proof.
  induction l as [|[i x] l IH]; [done|]. simpl.
  rewrite !filter_cons. simpl. destruct (decide (P i)); simpl; by rewrite IH.
Qed.

(** A set of indices below [n] has as many members as positions of
    [0 .. n-1] fall in it. *)
Lemma size_indices_below (F : gset nat) (n : nat) :
  (∀ i, i ∈ F → (i < n)%nat) →
  length (filter (λ i, i ∈ F) (seq 0 n)) = size F.
Proof.
  intros Hbound. unfold size, set_size. simpl.
  apply Permutation_length, NoDup_Permutation.
  - apply NoDup_filter, NoDup_seq.
  - apply NoDup_elements.
  - intros i. rewrite list_elem_of_filter, elem_of_elements, elem_of_seq.
    split; [tauto|]. intros Hi. split; [done|]. specialize (Hbound i Hi). lia.
Qed.

(** ** One page *)

Ltac unfold_monad :=
  unfold mbind, M_bind, mret, M_ret, call, print in *.

Section EngineFacts.

Variable float_repr : spec_float → string.
Variable cfg : config.
Variable w : world.

Lemma add_ids_union (existing : gset Z) (rs : list record) :
  add_ids existing rs = existing ∪ list_to_set (map rec_id rs).
Proof.
  unfold add_ids. revert existing.
  induction rs as [|r rs IH]; intros existing; simpl.
  - set_solver.
  - rewrite IH. set_solver.
Qed.

Lemma rows_to_insert_rows (sanitized : list pydict) :
  map fst (rows_to_insert_of cfg sanitized) = sanitized.
Proof.
  unfold rows_to_insert_of. rewrite map_map. simpl. apply map_id.
Qed.

Lemma new_records_fresh (existing : gset Z) (batch : list record) (r : record) :
  r ∈ new_records_of existing batch → rec_id r ∉ existing.
Proof.
  unfold new_records_of. by intros [? _]%list_elem_of_filter.
Qed.

Lemma new_records_duplicates (existing : gset Z) (batch : list record) :
  len batch - len (new_records_of existing batch)
  = len (filter (λ r, rec_id r ∈ existing) batch).
Proof.
  unfold len, new_records_of.
  pose proof (length_filter_split (λ r, rec_id r ∈ existing) batch). lia.
Qed.

(** The succeeded records are those at the positions outside the failed
    set. *)
Lemma succeeded_of_elem (F : gset nat) (nr : list record) (r : record) :
  r ∈ succeeded_of F nr ↔ ∃ i, nr !! i = Some r ∧ i ∉ F.
Proof.
  unfold succeeded_of, enumerate.
  change (map snd ?l) with (snd <$> l). rewrite list_elem_of_fmap. split.
  - intros [[i r'] [-> [HF Hin]%list_elem_of_filter]]. simpl in *.
    apply enumerate_from_lookup in Hin as [_ Hl].
    exists i. by rewrite Nat.sub_0_r in Hl.
  - intros (i & Hl & HF). exists (i, r). split; [done|].
    apply list_elem_of_filter. split; [done|].
    apply enumerate_from_lookup. split; [lia|]. by rewrite Nat.sub_0_r.
Qed.

Lemma succeeded_of_length (F : gset nat) (nr : list record) :
  (∀ i, i ∈ F → (i < length nr)%nat) →
  (length (succeeded_of F nr) + size F = length nr)%nat.
Proof.
  intros Hbound. unfold succeeded_of, enumerate. rewrite length_map.
  pose proof (length_filter_fst (λ i, i ∉ F) (enumerate_from 0 nr)) as Hfst.
  simpl in Hfst. rewrite Hfst, enumerate_from_fst. clear Hfst.
  rewrite <- (size_indices_below F (length nr) Hbound).
  pose proof (length_filter_split (λ i, i ∈ F) (seq 0 (length nr))) as Hsplit.
  rewrite length_seq in Hsplit. unfold not in *. lia.
Qed.

Lemma succeeded_of_sublist (F : gset nat) (nr : list record) :
  succeeded_of F nr `sublist_of` nr.
Proof.
  unfold succeeded_of, enumerate.
  assert (Hsnd : ∀ s, map snd (enumerate_from s nr) = nr).
  { induction nr as [|x l IH]; intros s; simpl; [done|]. by rewrite IH. }
  rewrite <- (Hsnd 0%nat) at 2.
  change (map snd ?l) with (snd <$> l). apply fmap_sublist, sublist_filter.
Qed.

(** With distinct ids on the page, the id of a failed row is not the id
    of any succeeded one. *)
Lemma failed_id_not_succeeded (F : gset nat) (nr : list record) (i : nat) (r : record) :
  NoDup (map rec_id nr) → nr !! i = Some r → i ∈ F →
  rec_id r ∉ map rec_id (succeeded_of F nr).
Proof.
  intros Hnd Hl HF Hin.
  change (map rec_id ?l) with (rec_id <$> l) in Hin.
  apply list_elem_of_fmap in Hin as (r' & Heq & Hr').
  apply succeeded_of_elem in Hr' as (j & Hj & HjF).
  assert (i = j) as ->; [|done].
  apply (NoDup_lookup (map rec_id nr) i j (rec_id r)); [done| |].
  - change (map rec_id nr) with (rec_id <$> nr). by rewrite list_lookup_fmap, Hl.
  - change (map rec_id nr) with (rec_id <$> nr). rewrite list_lookup_fmap, Hj.
    simpl. by rewrite Heq.
Qed.

Lemma fetch_records_batch_eq (off lim : Z) (window : option date_filter) (tr : trace) :
  fetch_records_batch w off lim window tr =
  (match odoo_search_read w tr off lim window with
   | Returns records => records
   | Raises => []
   end, tr ++ [SearchRead off lim window]).
Proof.
  unfold fetch_records_batch. unfold_monad.
  by destruct (odoo_search_read w tr off lim window).
Qed.

Lemma delete_from_odoo_eq (count : Z) (synced : list record) (deleted : Z) (tr : trace) :
  ∃ deleted',
    delete_from_odoo cfg w count synced deleted tr
    = (deleted', tr ++ unlink_events cfg count synced).
Proof.
  unfold delete_from_odoo, unlink_events. unfold_monad.
  destruct (DELETE_SYNCED_RECORDS cfg && (count >? 0)).
  - destruct (odoo_unlink w tr (map rec_id synced)); eauto.
  - rewrite app_nil_r. eauto.
Qed.

Lemma insert_new_records_eq (st : sync_state) (nr : list record) (tr : trace) :
  let rows := rows_to_insert_of cfg (sanitized_of float_repr nr) in
  let answer := bq_insert_rows_json w tr (map fst rows) (map snd rows) in
  ∃ deleted,
    insert_new_records float_repr cfg w st nr tr
    = (reconciled st nr answer deleted, tr ++ page_events float_repr cfg nr answer).
Proof.
  intros rows answer. unfold insert_new_records. unfold_monad.
  fold rows. fold answer. unfold page_events, reconciled.
  assert (Hlen : len (sanitized_of float_repr nr) = len nr).
  { unfold len, sanitized_of. by rewrite length_map. }
  rewrite Hlen.
  destruct answer as [errors|].
  - destruct (nonempty errors).
    + edestruct delete_from_odoo_eq as [deleted ->].
      exists deleted. by rewrite <- app_assoc.
    + edestruct delete_from_odoo_eq as [deleted ->].
      exists deleted. by rewrite <- app_assoc, Z.add_0_r.
  - exists 0. reflexivity.
Qed.

(** What one iteration does, read off the answers of the collaborators. *)
Lemma loop_body_eq (window : option date_filter) (st : sync_state) (tr : trace) :
  let batch := fst (fetch_records_batch w (offset st) (BATCH_LIMIT cfg) window tr) in
  let tr1 := tr ++ [SearchRead (offset st) (BATCH_LIMIT cfg) window] in
  match batch with
  | [] => loop_body float_repr cfg w window st tr = (StopEmptyPage, st, tr1)
  | _ :: _ =>
      ∃ st2 evs,
        loop_body float_repr cfg w window st tr
        = (cap_control cfg (offset st + BATCH_LIMIT cfg), advanced cfg st2, tr1 ++ evs)
        ∧ page_step float_repr cfg (counted st batch)
            (page_new_records cfg w window st tr)
            (page_insert_answer float_repr cfg w window st tr) st2 evs
  end.
Proof.
  intros batch tr1. unfold page_insert_answer, page_new_records.
  fold batch. subst batch. unfold loop_body.
  unfold mbind, M_bind.
  rewrite fetch_records_batch_eq. simpl fst. fold tr1.
  set (batch := match odoo_search_read w tr _ _ _ with
                | Returns records => records
                | Raises => []
                end).
  destruct batch as [|r0 batch'] eqn:Hbatch; [reflexivity|].
  rewrite <- Hbatch. replace (nonempty batch) with true by (by rewrite Hbatch).
  change (negb true) with false. cbv beta iota.
  set (nr := new_records_of (existing_ids st) batch).
  destruct (nonempty nr) eqn:Hnr.
  - destruct (insert_new_records_eq (counted st batch) nr tr1) as [deleted Heq].
    simpl in Heq. rewrite Heq.
    set (answer := bq_insert_rows_json w tr1 _ _) in *.
    exists (reconciled (counted st batch) nr answer deleted),
           (page_events float_repr cfg nr answer).
    split; [|simpl; eauto].
    assert (Hoff : offset (advanced cfg (reconciled (counted st batch) nr answer deleted))
                   = offset st + BATCH_LIMIT cfg).
    { by destruct answer. }
    rewrite Hoff. unfold cap_control, mret, M_ret.
    destruct (offset st + BATCH_LIMIT cfg >=? BATCH_LIMIT cfg * 100); reflexivity.
  - exists (counted st batch), []. split; [|simpl; done].
    assert (Hoff : offset (advanced cfg (counted st batch))
                   = offset st + BATCH_LIMIT cfg) by reflexivity.
    unfold mret, M_ret. cbv beta iota. rewrite Hoff.
    unfold cap_control. rewrite app_nil_r.
    destruct (offset st + BATCH_LIMIT cfg >=? BATCH_LIMIT cfg * 100); reflexivity.
Qed.

Lemma page_insert_answer_batch (window : option date_filter) (st : sync_state)
    (tr : trace) (a : outcome (list insert_error)) :
  page_insert_answer float_repr cfg w window st tr = Some a →
  page_new_records cfg w window st tr ≠ []
  ∧ fst (fetch_records_batch w (offset st) (BATCH_LIMIT cfg) window tr) ≠ [].
Proof.
  unfold page_insert_answer, page_new_records.
  destruct (fst (fetch_records_batch w _ _ _ _)) as [|r batch]; [done|].
  destruct (new_records_of _ _); done.
Qed.

(** A page whose new records reach the sink. *)
Lemma loop_body_insert (window : option date_filter) (st : sync_state) (tr : trace)
    (a : outcome (list insert_error)) :
  page_insert_answer float_repr cfg w window st tr = Some a →
  let batch := fst (fetch_records_batch w (offset st) (BATCH_LIMIT cfg) window tr) in
  let nr := page_new_records cfg w window st tr in
  ∃ deleted,
    loop_body float_repr cfg w window st tr
    = (cap_control cfg (offset st + BATCH_LIMIT cfg),
       advanced cfg (reconciled (counted st batch) nr a deleted),
       tr ++ SearchRead (offset st) (BATCH_LIMIT cfg) window
          :: page_events float_repr cfg nr a).
Proof.
  intros Ha batch nr.
  destruct (page_insert_answer_batch window st tr a Ha) as [_ Hbatch].
  pose proof (loop_body_eq window st tr) as Hbody. simpl in Hbody.
  fold batch in Hbody, Hbatch. destruct batch as [|r0 batch'] eqn:Hb; [done|].
  destruct Hbody as (st2 & evs & Heq & Hstep).
  rewrite Ha in Hstep. destruct Hstep as (deleted & -> & ->).
  exists deleted. by rewrite Heq, <- app_assoc.
Qed.

(** A page of duplicates only. *)
Lemma loop_body_no_insert (window : option date_filter) (st : sync_state) (tr : trace) :
  page_insert_answer float_repr cfg w window st tr = None →
  let batch := fst (fetch_records_batch w (offset st) (BATCH_LIMIT cfg) window tr) in
  batch ≠ [] →
  loop_body float_repr cfg w window st tr
  = (cap_control cfg (offset st + BATCH_LIMIT cfg),
     advanced cfg (counted st batch),
     tr ++ [SearchRead (offset st) (BATCH_LIMIT cfg) window]).
Proof.
  intros Ha batch Hbatch.
  pose proof (loop_body_eq window st tr) as Hbody. simpl in Hbody.
  fold batch in Hbody. destruct batch as [|r0 batch'] eqn:Hb; [done|].
  destruct Hbody as (st2 & evs & Heq & Hstep).
  rewrite Ha in Hstep. destruct Hstep as [-> ->].
  by rewrite Heq, app_nil_r.
Qed.

Lemma loop_body_empty (window : option date_filter) (st : sync_state) (tr : trace) :
  fst (fetch_records_batch w (offset st) (BATCH_LIMIT cfg) window tr) = [] →
  loop_body float_repr cfg w window st tr
  = (StopEmptyPage, st, tr ++ [SearchRead (offset st) (BATCH_LIMIT cfg) window]).
Proof.
  intros Hbatch. pose proof (loop_body_eq window st tr) as Hbody. simpl in Hbody.
  by rewrite Hbatch in Hbody.
Qed.

(** The three shapes of an iteration. *)
Lemma loop_body_shapes (window : option date_filter) (st : sync_state) (tr : trace) :
  let batch := fst (fetch_records_batch w (offset st) (BATCH_LIMIT cfg) window tr) in
  let nr := page_new_records cfg w window st tr in
  let fetch := SearchRead (offset st) (BATCH_LIMIT cfg) window in
  (batch = [] ∧ page_insert_answer float_repr cfg w window st tr = None
   ∧ loop_body float_repr cfg w window st tr = (StopEmptyPage, st, tr ++ [fetch]))
  ∨ (batch ≠ [] ∧ page_insert_answer float_repr cfg w window st tr = None
     ∧ loop_body float_repr cfg w window st tr
       = (cap_control cfg (offset st + BATCH_LIMIT cfg),
          advanced cfg (counted st batch), tr ++ [fetch]))
  ∨ (∃ a deleted,
       batch ≠ [] ∧ page_insert_answer float_repr cfg w window st tr = Some a
       ∧ loop_body float_repr cfg w window st tr
         = (cap_control cfg (offset st + BATCH_LIMIT cfg),
            advanced cfg (reconciled (counted st batch) nr a deleted),
            tr ++ fetch :: page_events float_repr cfg nr a)).
Proof.
  intros batch nr fetch.
  destruct (page_insert_answer float_repr cfg w window st tr) as [a|] eqn:Ha.
  - right. right. destruct (loop_body_insert window st tr a Ha) as [deleted Heq].
    exists a, deleted. split; [|done]. by apply (page_insert_answer_batch window st tr a).
  - destruct batch as [|r0 batch'] eqn:Hb.
    + left. split; [done|]. split; [done|]. by apply loop_body_empty.
    + right. left. split; [done|]. split; [done|].
      rewrite <- Hb. apply loop_body_no_insert; [done|]. fold batch. by rewrite Hb.
Qed.

Lemma rows_sent_unlink_events (count : Z) (synced : list record) :
  rows_sent (unlink_events cfg count synced) = [].
Proof. unfold unlink_events. by destruct (_ && _). Qed.

Lemma rows_sent_page_events (nr : list record) (a : outcome (list insert_error)) :
  rows_sent (page_events float_repr cfg nr a) = sanitized_of float_repr nr.
Proof.
  unfold page_events, rows_sent. simpl. rewrite rows_to_insert_rows.
  fold (rows_sent). destruct a as [errors|]; [|by rewrite app_nil_r].
  destruct (nonempty errors); by rewrite rows_sent_unlink_events, app_nil_r.
Qed.

Lemma deleted_ids_unlink_events (count : Z) (synced : list record) :
  len synced = count →
  deleted_ids (unlink_events cfg count synced)
  = if DELETE_SYNCED_RECORDS cfg then map rec_id synced else [].
Proof.
  intros Hlen. unfold unlink_events.
  destruct (DELETE_SYNCED_RECORDS cfg); simpl; [|done].
  destruct (count >? 0) eqn:Hpos; simpl; [by rewrite app_nil_r|].
  destruct synced; [done|]. unfold len in Hlen. simpl in Hlen. lia.
Qed.

(** C5: on every fetched page the skipped counter grows by exactly the
    number of records whose id is already in the existing-id set, and
    the rows handed to the sink are the sanitized copies of the other
    records only: no row sent carries an id of that set. *)
Theorem duplicates_counted_and_not_written
    (window : option date_filter) (st : sync_state) (tr : trace) :
  let batch := fst (fetch_records_batch w (offset st) (BATCH_LIMIT cfg) window tr) in
  let result := loop_body float_repr cfg w window st tr in
  let st' := snd (fst result) in
  total_skipped st'
  = total_skipped st + len (filter (λ r, rec_id r ∈ existing_ids st) batch)
  ∧ ∃ evs,
      snd result = tr ++ SearchRead (offset st) (BATCH_LIMIT cfg) window :: evs
      ∧ rows_sent evs
        = sanitized_of float_repr (filter (λ r, rec_id r ∉ existing_ids st) batch)
      ∧ ∀ row, row ∈ rows_sent evs →
          ∃ n, dict_get "id" row = Some (VInt n) ∧ n ∉ existing_ids st.
Proof.
  intros batch result st'. subst result st'.
  assert (Hids : ∀ row,
    row ∈ sanitized_of float_repr (filter (λ r, rec_id r ∉ existing_ids st) batch) →
    ∃ n, dict_get "id" row = Some (VInt n) ∧ n ∉ existing_ids st).
  { intros row Hrow. unfold sanitized_of in Hrow.
    change (map ?f ?l) with (f <$> l) in Hrow.
    apply list_elem_of_fmap in Hrow as (r & -> & Hr).
    exists (rec_id r). split; [reflexivity|].
    by apply list_elem_of_filter in Hr as [? _]. }
  destruct (loop_body_shapes window st tr)
    as [(Hb & _ & ->) | [(Hb & Ha & ->) | (a & deleted & Hb & Ha & ->)]];
    fold batch in Hb; simpl.
  - rewrite Hb. simpl. split; [unfold len; simpl; lia|].
    exists []. split; [done|]. split; [done|]. by intros row ?%elem_of_nil.
  - split; [apply f_equal, new_records_duplicates|].
    exists []. split; [done|].
    assert (Hnr : filter (λ r, rec_id r ∉ existing_ids st) batch = []).
    { unfold page_insert_answer, page_new_records in Ha. fold batch in Ha.
      unfold new_records_of in Ha.
      by destruct (filter (λ r, rec_id r ∉ existing_ids st) batch). }
    rewrite Hnr. split; [done|]. by intros row ?%elem_of_nil.
  - split.
    + destruct a as [errors|]; simpl; apply f_equal, new_records_duplicates.
    + eexists. split; [done|]. rewrite rows_sent_page_events.
      split; [done|]. apply Hids.
Qed.

(** C2: when the bulk insert of a page of N new records returns a
    non-empty error list naming k distinct positions of the page, the
    records at the other N-k positions are exactly those whose ids join
    the existing-id set and, with deletion enabled, exactly those whose
    ids are handed to the source delete call; the failed counter grows
    by k, and the id of a failed position is neither added nor deleted.
    Ids are distinct within the page, as the source assigns them. *)
Theorem partial_failure_isolated
    (window : option date_filter) (st : sync_state) (tr : trace)
    (errors : list insert_error) :
  let nr := page_new_records cfg w window st tr in
  let failed := failed_indices_of errors in
  let result := loop_body float_repr cfg w window st tr in
  let st' := snd (fst result) in
  page_insert_answer float_repr cfg w window st tr = Some (Returns errors) →
  errors ≠ [] →
  (∀ i, i ∈ failed → (i < length nr)%nat) →
  NoDup (map rec_id nr) →
  ∃ succeeded evs,
    snd result = tr ++ SearchRead (offset st) (BATCH_LIMIT cfg) window :: evs
    ∧ (∀ r, r ∈ succeeded ↔ ∃ i, nr !! i = Some r ∧ i ∉ failed)
    ∧ (length succeeded + size failed = length nr)%nat
    ∧ existing_ids st' = existing_ids st ∪ list_to_set (map rec_id succeeded)
    ∧ (size (existing_ids st') + size failed
       = size (existing_ids st) + length nr)%nat
    ∧ deleted_ids evs
      = (if DELETE_SYNCED_RECORDS cfg then map rec_id succeeded else [])
    ∧ total_failed st' = total_failed st + Z.of_nat (size failed)
    ∧ total_inserted st' = total_inserted st + (len nr - Z.of_nat (size failed))
    ∧ ∀ i r, i ∈ failed → nr !! i = Some r →
        (rec_id r ∉ existing_ids st') ∧ (rec_id r ∉ deleted_ids evs).
Proof.
  intros nr failed result st' Ha Herrors Hbound Hnd. subst result st'.
  destruct (loop_body_insert window st tr _ Ha) as [deleted ->].
  fold nr. simpl.
  replace (nonempty errors) with true by (by destruct errors).
  fold failed.
  set (succ := succeeded_of failed nr).
  pose proof (succeeded_of_length failed nr Hbound) as Hlen. fold succ in Hlen.
  assert (Hfresh : ∀ r, r ∈ nr → rec_id r ∉ existing_ids st).
  { intros r Hr. by apply (new_records_fresh _ _ _ Hr). }
  assert (Hsub : succ `sublist_of` nr) by apply succeeded_of_sublist.
  assert (Hnd' : NoDup (map rec_id succ)).
  { eapply sublist_NoDup; [exact Hnd|].
    change (map rec_id ?l) with (rec_id <$> l). by apply fmap_sublist. }
  assert (Hdel : deleted_ids (unlink_events cfg (len nr - Z.of_nat (size failed)) succ)
                 = if DELETE_SYNCED_RECORDS cfg then map rec_id succ else []).
  { apply deleted_ids_unlink_events. unfold len. lia. }
  exists succ, (page_events float_repr cfg nr (Returns errors)).
  split; [done|].
  split; [apply succeeded_of_elem|].
  split; [done|].
  split; [apply add_ids_union|].
  split.
  { rewrite add_ids_union, size_union, size_list_to_set, length_map; [lia|done|].
    apply elem_of_disjoint. intros x Hx Hy%elem_of_list_to_set.
    change (map rec_id succ) with (rec_id <$> succ) in Hy.
    apply list_elem_of_fmap in Hy as (r & -> & Hr).
    apply (Hfresh r); [|done]. by eapply elem_of_sublist. }
  unfold page_events. replace (nonempty errors) with true by (by destruct errors).
  fold failed. fold succ. simpl deleted_ids. rewrite Hdel.
  split; [done|]. split; [done|]. split; [done|].
  intros i r Hi Hl.
  pose proof (failed_id_not_succeeded failed nr i r Hnd Hl Hi) as Hnot.
  fold succ in Hnot. split.
  - rewrite add_ids_union, elem_of_union, elem_of_list_to_set.
    intros [Hin | Hin]; [|done].
    apply (Hfresh r); [|done]. by eapply list_elem_of_lookup_2.
  - destruct (DELETE_SYNCED_RECORDS cfg); [done|]. apply not_elem_of_nil.
Qed.

Lemma page_events_quiet (nr : list record) (a : outcome (list insert_error)) :
  fetch_calls (page_events float_repr cfg nr a) = []
  ∧ checkpoint_writes (page_events float_repr cfg nr a) = [].
Proof.
  unfold page_events, unlink_events.
  destruct a as [errors|]; [|done].
  destruct (nonempty errors), (DELETE_SYNCED_RECORDS cfg); simpl; [|done| |done].
  - by destruct (_ >? 0).
  - by destruct (_ >? 0).
Qed.

(** Each iteration logs its fetch first, then no further fetch and no
    checkpoint write. *)
Lemma loop_body_trace (window : option date_filter) (st : sync_state) (tr : trace) :
  ∃ evs,
    snd (loop_body float_repr cfg w window st tr)
    = tr ++ SearchRead (offset st) (BATCH_LIMIT cfg) window :: evs
    ∧ fetch_calls evs = [] ∧ checkpoint_writes evs = [].
Proof.
  destruct (loop_body_shapes window st tr)
    as [(_ & _ & ->) | [(_ & _ & ->) | (a & deleted & _ & _ & ->)]]; simpl.
  - by exists [].
  - by exists [].
  - eexists. split; [done|]. apply page_events_quiet.
Qed.

Lemma loop_body_fetch_calls (window : option date_filter) (st : sync_state) (tr : trace) :
  fetch_calls (snd (loop_body float_repr cfg w window st tr))
  = fetch_calls tr ++ [SearchRead (offset st) (BATCH_LIMIT cfg) window].
Proof.
  destruct (loop_body_trace window st tr) as (evs & -> & Hevs & _).
  unfold fetch_calls in *. rewrite List.filter_app. simpl. by rewrite Hevs.
Qed.

(** C8, as the code has it: when the bulk insert of a page raises, no id
    of the page joins the existing-id set, no delete call is made for
    the page, the inserted and failed counters keep their values and the
    offset moves on by the batch limit; the loop then goes on to fetch
    the next page at that offset unless the offset has reached the
    safety limit of 100 batches, where the run stops as it does after
    any other page. *)
Theorem insert_exception_abandons_page
    (window : option date_filter) (st : sync_state) (tr : trace) :
  let result := loop_body float_repr cfg w window st tr in
  let why := fst (fst result) in
  let st' := snd (fst result) in
  let next := offset st + BATCH_LIMIT cfg in
  page_insert_answer float_repr cfg w window st tr = Some Raises →
  existing_ids st' = existing_ids st
  ∧ total_inserted st' = total_inserted st
  ∧ total_failed st' = total_failed st
  ∧ offset st' = next
  ∧ (∃ evs, snd result = tr ++ SearchRead (offset st) (BATCH_LIMIT cfg) window :: evs
            ∧ deleted_ids evs = [] ∧ List.filter is_unlink evs = [])
  ∧ (next < BATCH_LIMIT cfg * 100 →
     why = Continue
     ∧ fetch_calls (snd (loop_body float_repr cfg w window st' (snd result)))
       = fetch_calls (snd result) ++ [SearchRead next (BATCH_LIMIT cfg) window])
  ∧ (BATCH_LIMIT cfg * 100 ≤ next → why = StopSafetyCap).
Proof.
  intros result why st' next Ha. subst result why st'.
  destruct (loop_body_insert window st tr _ Ha) as [deleted Heq].
  rewrite Heq. simpl. fold next.
  do 4 (split; [done|]).
  split; [by eexists|].
  unfold cap_control. split.
  - intros Hlt. replace (next >=? BATCH_LIMIT cfg * 100) with false by lia.
    split; [done|]. by rewrite loop_body_fetch_calls.
  - intros Hge. by replace (next >=? BATCH_LIMIT cfg * 100) with true by lia.
Qed.

(** An iteration never removes an id. *)
Lemma loop_body_existing_mono (window : option date_filter) (st : sync_state) (tr : trace) :
  existing_ids st ⊆ existing_ids (snd (fst (loop_body float_repr cfg w window st tr))).
Proof.
  destruct (loop_body_shapes window st tr)
    as [(_ & _ & ->) | [(_ & _ & ->) | (a & deleted & _ & _ & ->)]]; simpl; [done..|].
  destruct a as [errors|]; simpl; [|done].
  rewrite add_ids_union. set_solver.
Qed.

(** The change of the accounting gap over one iteration. *)
Lemma loop_body_accounting (window : option date_filter) (st : sync_state) (tr : trace) :
  let st' := snd (fst (loop_body float_repr cfg w window st tr)) in
  total_fetched st' - accounted st'
  = total_fetched st - accounted st
    + match page_insert_answer float_repr cfg w window st tr with
      | Some Raises => len (page_new_records cfg w window st tr)
      | _ => 0
      end.
Proof.
  intros st'. subst st'.
  destruct (loop_body_shapes window st tr)
    as [(_ & -> & ->) | [(Hb & Ha & ->) | (a & deleted & Hb & -> & ->)]];
    unfold accounted; simpl.
  - lia.
  - rewrite Ha.
    assert (Hnr : new_records_of (existing_ids st)
                    (fst (fetch_records_batch w (offset st) (BATCH_LIMIT cfg) window tr))
                  = []).
    { unfold page_insert_answer, page_new_records in Ha.
      by destruct (new_records_of _ _). }
    rewrite Hnr. unfold len. simpl. lia.
  - unfold page_new_records. destruct a as [errors|]; simpl.
    + destruct (nonempty errors); lia.
    + lia.
Qed.

(** ** The whole run *)

Local Abbreviation body := (loop_body float_repr cfg w).
Local Abbreviation while := (while_true float_repr cfg w).
Local Abbreviation iterate := (iterate_body float_repr cfg w).

Lemma while_true_S (window : option date_filter) (fuel : nat) (st : sync_state) (tr : trace) :
  while window (S fuel) st tr =
  match fst (fst (body window st tr)) with
  | Continue => while window fuel (snd (fst (body window st tr))) (snd (body window st tr))
  | _ => (Some (fst (body window st tr)), snd (body window st tr))
  end.
Proof.
  simpl. unfold_monad. destruct (body window st tr) as [[why st'] tr']. simpl.
  by destruct why.
Qed.

Lemma iterate_body_S (window : option date_filter) (n : nat) (st : sync_state) (tr : trace) :
  iterate window (S n) st tr =
  match fst (fst (iterate window n st tr)) with
  | Continue => body window (snd (fst (iterate window n st tr))) (snd (iterate window n st tr))
  | _ => iterate window n st tr
  end.
Proof.
  simpl. unfold_monad. destruct (iterate_body _ _ _ window n st tr) as [[why st'] tr'].
  simpl. by destruct why.
Qed.

(** Peeling the first iteration instead of the last. *)
Lemma iterate_body_first (window : option date_filter) (n : nat) (st : sync_state) (tr : trace) :
  iterate window (S n) st tr =
  match fst (fst (body window st tr)) with
  | Continue => iterate window n (snd (fst (body window st tr))) (snd (body window st tr))
  | _ => body window st tr
  end.
Proof.
  induction n as [|n IH].
  - rewrite iterate_body_S. simpl. unfold_monad. simpl.
    destruct (body window st tr) as [[why st'] tr']. simpl. by destruct why.
  - rewrite iterate_body_S, IH.
    destruct (body window st tr) as [[why st'] tr'] eqn:Hbody. cbn [fst snd].
    destruct why; cbn [fst snd]; [|done..]. by rewrite iterate_body_S.
Qed.

(** A loop that ended did so after some number of iterations. *)
Lemma while_true_iterate (window : option date_filter) (fuel : nat)
    (st : sync_state) (tr : trace) (why : control) (st' : sync_state) (tr' : trace) :
  while window fuel st tr = (Some (why, st'), tr') →
  why ≠ Continue ∧ ∃ n, (n < fuel)%nat ∧ iterate window (S n) st tr = (why, st', tr').
Proof.
  revert st tr. induction fuel as [|fuel IH]; intros st tr; [done|].
  rewrite while_true_S.
  destruct (body window st tr) as [[why1 st1] tr1] eqn:Hbody. cbn [fst snd].
  destruct why1.
  - intros Hrun. destruct (IH _ _ Hrun) as (Hwhy & n & Hn & Hit).
    split; [done|]. exists (S n). split; [lia|].
    by rewrite iterate_body_first, Hbody.
  - intros [= <- <- <-]. split; [done|]. exists 0%nat. split; [lia|].
    by rewrite iterate_body_first, Hbody.
  - intros [= <- <- <-]. split; [done|]. exists 0%nat. split; [lia|].
    by rewrite iterate_body_first, Hbody.
Qed.

Lemma while_true_more_fuel (window : option date_filter) (fuel fuel' : nat)
    (st : sync_state) (tr : trace) (r : control * sync_state) (tr' : trace) :
  (fuel ≤ fuel')%nat →
  while window fuel st tr = (Some r, tr') →
  while window fuel' st tr = (Some r, tr').
Proof.
  revert fuel' st tr. induction fuel as [|fuel IH]; intros fuel' st tr Hle; [done|].
  destruct fuel' as [|fuel']; [lia|]. rewrite !while_true_S.
  destruct (fst (fst (body window st tr))); [|done..].
  apply IH. lia.
Qed.

Lemma while_true_trace (window : option date_filter) (fuel : nat)
    (st : sync_state) (tr : trace) :
  ∃ evs, snd (while window fuel st tr) = tr ++ evs ∧ checkpoint_writes evs = [].
Proof.
  revert st tr. induction fuel as [|fuel IH]; intros st tr.
  - exists []. by rewrite app_nil_r.
  - rewrite while_true_S.
    destruct (loop_body_trace window st tr) as (evs & Htr & _ & Hck).
    destruct (fst (fst (body window st tr))).
    + destruct (IH (snd (fst (body window st tr))) (snd (body window st tr)))
        as (evs' & -> & Hck').
      rewrite Htr. exists (SearchRead (offset st) (BATCH_LIMIT cfg) window :: evs ++ evs').
      split; [by rewrite <- app_assoc|].
      unfold checkpoint_writes in *. simpl. by rewrite List.filter_app, Hck, Hck'.
    + simpl. rewrite Htr. by eexists.
    + simpl. rewrite Htr. by eexists.
Qed.

Lemma get_existing_ids_eq (tr : trace) :
  get_existing_ids cfg w tr =
  (match bq_query_ids w tr with
   | Returns rows => list_to_set rows
   | Raises => ∅
   end, tr ++ [QueryIds (BQ_TABLE_ID cfg)]).
Proof.
  unfold get_existing_ids. unfold_monad. by destruct (bq_query_ids w tr).
Qed.

Lemma date_window_trace (tr : trace) : snd (date_window cfg w tr) = tr.
Proof.
  unfold date_window. unfold_monad. by destruct (negb _).
Qed.

Lemma bootstrap_trace (tr : trace) :
  ∃ evs, snd (bootstrap cfg w tr) = tr ++ SearchReadSample :: evs
         ∧ checkpoint_writes evs = [] ∧ fetch_calls evs = [] ∧ rows_sent evs = [].
Proof.
  unfold bootstrap. unfold_monad.
  destruct (odoo_search_read_sample w tr) as [[|first rest]|]; simpl;
    try (exists []; by rewrite ?app_nil_r).
  destruct (generate_create_table_sql _ _) as [sql|]; simpl.
  - eexists. rewrite <- !app_assoc. simpl. done.
  - exists []. done.
Qed.

(** The two ways through [run_sync]. *)
Lemma run_sync_table_missing (fuel : nat) :
  bq_get_table w [] = Raises →
  run_sync float_repr cfg w fuel []
  = (Some Bootstrapped, snd (bootstrap cfg w [GetTable (BQ_TABLE_ID cfg)])).
Proof.
  intros Htable. unfold run_sync. unfold_monad. rewrite Htable. simpl.
  by destruct (bootstrap cfg w _).
Qed.

Lemma run_sync_table_found (fuel : nat) (u : unit) :
  bq_get_table w [] = Returns u →
  run_sync float_repr cfg w fuel []
  = (match fst (while (entry_window cfg w) fuel
                  (initial_state (entry_existing cfg w)) (entry_trace cfg)) with
     | Some (why, st) => Some (Synced why st)
     | None => None
     end,
     snd (while (entry_window cfg w) fuel
            (initial_state (entry_existing cfg w)) (entry_trace cfg))).
Proof.
  intros Htable. unfold run_sync, entry_window, entry_existing. unfold_monad.
  rewrite Htable. simpl app. rewrite get_existing_ids_eq. simpl fst. simpl app.
  fold (entry_trace cfg).
  pose proof (date_window_trace (entry_trace cfg)) as Hwin.
  destruct (date_window cfg w (entry_trace cfg)) as [window tr1]. simpl in Hwin.
  subst tr1. simpl fst.
  by destruct (while_true _ _ _ window fuel _ _) as [[[why st]|] tr'].
Qed.

(** An iteration either meets an empty page, or moves the offset and
    applies the safety-limit test. *)
Lemma loop_body_control (window : option date_filter) (st : sync_state) (tr : trace) :
  (body window st tr
   = (StopEmptyPage, st, tr ++ [SearchRead (offset st) (BATCH_LIMIT cfg) window])
   ∧ fst (fetch_records_batch w (offset st) (BATCH_LIMIT cfg) window tr) = [])
  ∨ (fst (fst (body window st tr)) = cap_control cfg (offset st + BATCH_LIMIT cfg)
     ∧ offset (snd (fst (body window st tr))) = offset st + BATCH_LIMIT cfg).
Proof.
  destruct (loop_body_shapes window st tr)
    as [(Hb & _ & ->) | [(_ & _ & ->) | (a & deleted & _ & _ & ->)]].
  - by left.
  - by right.
  - right. split; [done|]. by destruct a.
Qed.

Lemma while_true_bounded (window : option date_filter) (k : nat) :
  ∀ (n : nat) (st : sync_state) (tr : trace) (fuel : nat),
    (n + k = 100)%nat → (1 ≤ k)%nat → (k ≤ fuel)%nat →
    offset st = Z.of_nat n * BATCH_LIMIT cfg →
    (n = 0%nat ∨ 0 < BATCH_LIMIT cfg) →
    ∃ why st' evs m,
      while window fuel st tr = (Some (why, st'), tr ++ evs)
      ∧ (1 ≤ m ≤ k)%nat
      ∧ fetch_calls evs
        = map (λ i, SearchRead (Z.of_nat i * BATCH_LIMIT cfg) (BATCH_LIMIT cfg) window)
              (seq n m)
      ∧ ((why = StopEmptyPage
          ∧ ∃ pre, tr ++ evs = pre ++ [SearchRead (offset st') (BATCH_LIMIT cfg) window]
                   ∧ fst (fetch_records_batch w (offset st') (BATCH_LIMIT cfg) window pre) = [])
         ∨ (why = StopSafetyCap ∧ BATCH_LIMIT cfg * 100 ≤ offset st')).
Proof.
  induction k as [|k IH]; intros n st tr fuel Hnk Hk Hfuel Hoff Hpos; [lia|].
  destruct fuel as [|fuel]; [lia|]. rewrite while_true_S.
  destruct (loop_body_control window st tr) as [[Heq Hempty] | [Hwhy Hoff']].
  - rewrite Heq. cbn [fst snd].
    exists StopEmptyPage, st, [SearchRead (offset st) (BATCH_LIMIT cfg) window], 1%nat.
    split; [done|]. split; [lia|]. split; [simpl; by rewrite Hoff|].
    left. split; [done|]. by exists tr.
  - destruct (loop_body_trace window st tr) as (pevs & Htr & Hfetch & _).
    destruct (body window st tr) as [[why1 st1] tr1]. cbn [fst snd] in *.
    subst why1 tr1. unfold cap_control.
    destruct (offset st + BATCH_LIMIT cfg >=? BATCH_LIMIT cfg * 100) eqn:Hcap.
    + exists StopSafetyCap, st1,
             (SearchRead (offset st) (BATCH_LIMIT cfg) window :: pevs), 1%nat.
      split; [done|]. split; [lia|].
      split; [unfold fetch_calls in *; simpl; by rewrite Hfetch, Hoff|].
      right. split; [done|]. lia.
    + assert (Hn : (n < 99)%nat ∧ 0 < BATCH_LIMIT cfg) by nia.
      destruct (IH (S n) st1
                  (tr ++ SearchRead (offset st) (BATCH_LIMIT cfg) window :: pevs) fuel)
        as (why & st' & evs & m & Hrun & Hm & Hcalls & Hend); [lia..| | |].
      { rewrite Hoff', Hoff. lia. }
      { right. apply Hn. }
      rewrite Hrun.
      exists why, st',
             (SearchRead (offset st) (BATCH_LIMIT cfg) window :: pevs ++ evs), (S m).
      split; [by rewrite <- app_assoc|]. split; [lia|].
      split.
      { unfold fetch_calls in *. simpl. by rewrite List.filter_app, Hfetch, Hcalls, Hoff. }
      destruct Hend as [(-> & pre & Hpre & Hlast) | Hcapped]; [|by right].
      left. split; [done|]. exists pre. split; [|done].
      rewrite <- Hpre. by rewrite <- app_assoc.
Qed.

(** Fuel beyond 100 changes nothing. *)
Lemma run_sync_fuel_irrelevant (fuel : nat) :
  (100 ≤ fuel)%nat →
  run_sync float_repr cfg w fuel [] = run_sync float_repr cfg w 100 [].
Proof.
  intros Hfuel. destruct (bq_get_table w []) as [u|] eqn:Htable.
  - rewrite !(run_sync_table_found _ u Htable).
    destruct (while_true_bounded (entry_window cfg w) 100 0
                (initial_state (entry_existing cfg w)) (entry_trace cfg) 100)
      as (why & st' & evs & m & Hrun & _); [lia..|done|by left|].
    by rewrite (while_true_more_fuel _ 100 fuel _ _ _ _ Hfuel Hrun), Hrun.
  - by rewrite !(run_sync_table_missing _ Htable).
Qed.

(** C7: a run makes at most 100 page fetches, whatever the source still
    holds. With enough fuel the run ends; its fetches are at offsets 0,
    B, 2B, ... for the batch limit B, and the loop has stopped either on
    an empty page or with the offset at or beyond 100 times B. *)
Theorem at_most_100_page_fetches (fuel : nat) :
  (100 ≤ fuel)%nat →
  ∃ result tr,
    run_sync float_repr cfg w fuel [] = (Some result, tr)
    ∧ (length (fetch_calls tr) ≤ 100)%nat
    ∧ match result with
      | Bootstrapped => fetch_calls tr = []
      | Synced why st =>
          fetch_calls tr
          = map (λ i, SearchRead (Z.of_nat i * BATCH_LIMIT cfg) (BATCH_LIMIT cfg)
                        (entry_window cfg w))
                (seq 0 (length (fetch_calls tr)))
          ∧ ((why = StopEmptyPage
              ∧ ∃ pre, tr = pre ++ [SearchRead (offset st) (BATCH_LIMIT cfg)
                                      (entry_window cfg w)]
                       ∧ fst (fetch_records_batch w (offset st) (BATCH_LIMIT cfg)
                                (entry_window cfg w) pre) = [])
             ∨ (why = StopSafetyCap ∧ BATCH_LIMIT cfg * 100 ≤ offset st))
      end.
Proof.
  intros Hfuel. destruct (bq_get_table w []) as [u|] eqn:Htable.
  - rewrite (run_sync_table_found fuel u Htable).
    destruct (while_true_bounded (entry_window cfg w) 100 0
                (initial_state (entry_existing cfg w)) (entry_trace cfg) fuel)
      as (why & st' & evs & m & Hrun & Hm & Hcalls & Hend); [lia..|done|by left|].
    rewrite Hrun. cbn [fst snd].
    exists (Synced why st'), (entry_trace cfg ++ evs). split; [done|].
    assert (Hentry : fetch_calls (entry_trace cfg ++ evs) = fetch_calls evs).
    { unfold fetch_calls. by rewrite List.filter_app. }
    rewrite Hentry, Hcalls, length_map, length_seq.
    split; [lia|]. split; [done|]. done.
  - rewrite (run_sync_table_missing fuel Htable).
    destruct (bootstrap_trace [GetTable (BQ_TABLE_ID cfg)])
      as (evs & -> & _ & Hfetch & _).
    exists Bootstrapped. eexists. split; [done|].
    unfold fetch_calls in *. simpl. rewrite Hfetch. simpl. split; [lia|done].
Qed.

Lemma update_last_synced_time_logged (ts : Z) (tr : trace) :
  checkpoint_writes (snd (update_last_synced_time ts tr))
  = checkpoint_writes tr ++ [WriteCheckpoint ts].
Proof.
  unfold update_last_synced_time, call, checkpoint_writes. simpl.
  by rewrite List.filter_app.
Qed.

(** C1, as the code has it: a run never writes the checkpoint. Whether
    the loop ends on an empty page or at the safety limit, and whatever
    failed, [run_sync] goes from the loop to its summary and returns;
    [update_last_synced_time] is not called on any path. *)
Theorem run_sync_writes_no_checkpoint (fuel : nat) :
  checkpoint_writes (snd (run_sync float_repr cfg w fuel [])) = [].
Proof.
  destruct (bq_get_table w []) as [u|] eqn:Htable.
  - rewrite (run_sync_table_found fuel u Htable). cbn [snd].
    destruct (while_true_trace (entry_window cfg w) fuel
                (initial_state (entry_existing cfg w)) (entry_trace cfg))
      as (evs & -> & Hck).
    unfold checkpoint_writes in *. by rewrite List.filter_app, Hck.
  - rewrite (run_sync_table_missing fuel Htable). cbn [snd].
    destruct (bootstrap_trace [GetTable (BQ_TABLE_ID cfg)]) as (evs & -> & Hck & _).
    unfold checkpoint_writes in *. simpl. by rewrite Hck.
Qed.

(** C6: when the destination table is missing and the source has a
    record, the run fetches one sample, prints the CREATE TABLE text whose
    field lines follow the inference table (null, boolean, list, object
    and anything else STRING; integer INTEGER; float FLOAT64), prints its
    one-line form, and returns: no page is fetched and no row is sent to
    the sink. The table id has its three dotted parts. *)
Theorem bootstrap_emits_create_table
    (fuel : nat) (first : record) (rest : list record)
    (project_id dataset_id table_name : string) :
  bq_get_table w [] = Raises →
  odoo_search_read_sample w [GetTable (BQ_TABLE_ID cfg)] = Returns (first :: rest) →
  split_on "." (BQ_TABLE_ID cfg) = [project_id; dataset_id; table_name] →
  let fields :=
    map (λ kv, "  " +:+ fst kv +:+ " " +:+ inferred_type (snd kv)) (items first) in
  let create_sql :=
    "CREATE TABLE `" +:+ project_id +:+ "." +:+ dataset_id +:+ "." +:+ table_name
    +:+ "` (" +:+ newline +:+ join ("," +:+ newline) fields +:+ newline +:+ ");" in
  run_sync float_repr cfg w fuel []
  = (Some Bootstrapped,
     [GetTable (BQ_TABLE_ID cfg); SearchReadSample;
      Print create_sql; Print (join " " (split_ws create_sql))])
  ∧ rows_sent (snd (run_sync float_repr cfg w fuel [])) = []
  ∧ fetch_calls (snd (run_sync float_repr cfg w fuel [])) = [].
Proof.
  intros Htable Hsample Hparts fields create_sql.
  assert (Hsql : generate_create_table_sql (BQ_TABLE_ID cfg) (items first)
                 = Some create_sql).
  { unfold generate_create_table_sql. rewrite Hparts. f_equal.
    subst create_sql fields. cbv zeta. rewrite !append_assoc.
    rewrite (map_ext ddl_field
               (λ kv, "  " +:+ fst kv +:+ " " +:+ inferred_type (snd kv)));
      [reflexivity|].
    intros kv. unfold ddl_field. by rewrite python_type_to_bq_rule. }
  assert (Hrun : run_sync float_repr cfg w fuel []
                 = (Some Bootstrapped,
                    [GetTable (BQ_TABLE_ID cfg); SearchReadSample;
                     Print create_sql; Print (join " " (split_ws create_sql))])).
  { rewrite (run_sync_table_missing fuel Htable). f_equal.
    unfold bootstrap. unfold_monad. rewrite Hsample, Hsql. reflexivity. }
  rewrite Hrun. done.
Qed.

Lemma run_state_existing_mono (n : nat) :
  existing_ids (snd (fst (run_state float_repr cfg w n)))
  ⊆ existing_ids (snd (fst (run_state float_repr cfg w (S n)))).
Proof.
  unfold run_state. rewrite iterate_body_S.
  destruct (fst (fst (iterate _ _ _ _))); [|done..].
  apply loop_body_existing_mono.
Qed.

Lemma run_state_existing_entry (n : nat) :
  entry_existing cfg w ⊆ existing_ids (snd (fst (run_state float_repr cfg w n))).
Proof.
  induction n as [|n IH]; [done|].
  etrans; [exact IH|apply run_state_existing_mono].
Qed.

(** A run that reaches the summary is the run after some number of
    iterations. *)
Lemma run_sync_run_state (fuel : nat) (why : control) (st : sync_state) (tr : trace) :
  run_sync float_repr cfg w fuel [] = (Some (Synced why st), tr) →
  ∃ n, run_state float_repr cfg w n = (why, st, tr).
Proof.
  destruct (bq_get_table w []) as [u|] eqn:Htable.
  - rewrite (run_sync_table_found fuel u Htable).
    destruct (while _ _ _ _) as [[[why' st']|] tr'] eqn:Hrun; cbn [fst snd]; [|done].
    intros [= -> -> ->].
    apply while_true_iterate in Hrun as (_ & n & _ & Hit). by exists (S n).
  - by rewrite (run_sync_table_missing fuel Htable).
Qed.

(** C9: the existing-id set only grows. No iteration of the loop removes
    an id, so the set after each further iteration of a run includes the
    one before; the run starts from the ids the destination lists when
    asked at its start (none if that query fails), taking no set from an
    earlier run, and ends with a set that still holds all of them. *)
Theorem existing_ids_only_grow :
  (∀ window st tr,
     existing_ids st ⊆ existing_ids (snd (fst (loop_body float_repr cfg w window st tr))))
  ∧ (∀ n, existing_ids (snd (fst (run_state float_repr cfg w n)))
          ⊆ existing_ids (snd (fst (run_state float_repr cfg w (S n)))))
  ∧ existing_ids (snd (fst (run_state float_repr cfg w 0)))
    = match bq_query_ids w [GetTable (BQ_TABLE_ID cfg)] with
      | Returns rows => list_to_set rows
      | Raises => ∅
      end
  ∧ (∀ fuel why st tr,
       run_sync float_repr cfg w fuel [] = (Some (Synced why st), tr) →
       (∃ n, run_state float_repr cfg w n = (why, st, tr))
       ∧ existing_ids (snd (fst (run_state float_repr cfg w 0))) ⊆ existing_ids st).
Proof.
  split; [apply loop_body_existing_mono|].
  split; [apply run_state_existing_mono|].
  split.
  { unfold run_state, entry_existing. simpl. by rewrite get_existing_ids_eq. }
  intros fuel why st tr Hrun.
  destruct (run_sync_run_state fuel why st tr Hrun) as [n Hn].
  split; [by exists n|].
  pose proof (run_state_existing_entry n) as Hsub. by rewrite Hn in Hsub.
Qed.

(** C10: the accounting identity. Over one iteration the difference
    between fetched and inserted + failed + skipped stays the same unless
    the bulk insert of the page raises, and then it grows by the number
    of new records of the page, which is positive. So in a run in which no
    bulk insert raises, fetched = inserted + failed + skipped holds after
    every iteration and in the final summary. *)
Theorem accounting_identity :
  (∀ window st tr,
     let st' := snd (fst (loop_body float_repr cfg w window st tr)) in
     (page_insert_answer float_repr cfg w window st tr ≠ Some Raises →
      total_fetched st' - accounted st' = total_fetched st - accounted st)
     ∧ (page_insert_answer float_repr cfg w window st tr = Some Raises →
        total_fetched st' - accounted st'
        = total_fetched st - accounted st + len (page_new_records cfg w window st tr)
        ∧ 0 < len (page_new_records cfg w window st tr)))
  ∧ ((∀ n, fst (fst (run_state float_repr cfg w n)) = Continue →
           page_insert_answer float_repr cfg w (entry_window cfg w)
             (snd (fst (run_state float_repr cfg w n)))
             (snd (run_state float_repr cfg w n)) ≠ Some Raises) →
     (∀ n, total_fetched (snd (fst (run_state float_repr cfg w n)))
           = accounted (snd (fst (run_state float_repr cfg w n))))
     ∧ (∀ fuel why st tr,
          run_sync float_repr cfg w fuel [] = (Some (Synced why st), tr) →
          total_fetched st = accounted st)).
Proof.
  split.
  - intros window st tr st'. subst st'.
    pose proof (loop_body_accounting window st tr) as Hgap. simpl in Hgap.
    split.
    + intros Hok. rewrite Hgap.
      destruct (page_insert_answer _ _ _ _ _ _) as [[errors|]|]; [lia|done|lia].
    + intros Hraise. rewrite Hgap, Hraise. split; [done|].
      destruct (page_insert_answer_batch window st tr _ Hraise) as [Hnr _].
      unfold len. destruct (page_new_records _ _ _ _ _); [done|]. simpl. lia.
  - intros Hok.
    assert (Hall : ∀ n, total_fetched (snd (fst (run_state float_repr cfg w n)))
                        = accounted (snd (fst (run_state float_repr cfg w n)))).
    { induction n as [|n IH]; [reflexivity|].
      unfold run_state in *. rewrite iterate_body_S.
      destruct (fst (fst (iterate _ _ _ _))) eqn:Hwhy; [|done..].
      pose proof (loop_body_accounting (entry_window cfg w)
                    (snd (fst (iterate (entry_window cfg w) n
                                 (initial_state (entry_existing cfg w)) (entry_trace cfg))))
                    (snd (iterate (entry_window cfg w) n
                            (initial_state (entry_existing cfg w)) (entry_trace cfg))))
        as Hgap.
      simpl in Hgap. specialize (Hok n Hwhy). unfold run_state in Hok.
      destruct (page_insert_answer _ _ _ _ _ _) as [[errors|]|]; [lia|done|lia]. }
    split; [exact Hall|].
    intros fuel why st tr Hrun.
    destruct (run_sync_run_state fuel why st tr Hrun) as [n Hn].
    specialize (Hall n). by rewrite Hn in Hall.
Qed.

End EngineFacts.

(** ** The sample worlds *)

(** The end-to-end scenario of three orders and an empty destination: the
    run drains the source, inserts and deletes the three records, reaches
    its summary, and the log holds no checkpoint write, where the claim
    asks for exactly one. *)
Lemma three_orders_run_leaves_checkpoint_unwritten :
  ∃ st tr,
    run_sync sample_float_repr (sample_config 10) world_three_orders 100 []
    = (Some (Synced StopEmptyPage st), tr)
    ∧ total_fetched st = 3 ∧ total_inserted st = 3 ∧ total_failed st = 0
    ∧ fetch_calls tr = [SearchRead 0 10 None; SearchRead 10 10 None]
    ∧ deleted_ids tr = [1; 2; 3]
    ∧ length (checkpoint_writes tr) ≠ 1%nat.
Proof.
  eexists _, _. split; [vm_compute; reflexivity|].
  vm_compute. repeat split; discriminate.
Qed.

(** The second of three new rows is rejected: orders 1 and 3 are marked
    synced and deleted, order 2 is not. *)
Lemma partial_failure_isolated_witness :
  page_insert_answer sample_float_repr (sample_config 10) world_second_row_rejected
    None (initial_state ∅) (entry_trace (sample_config 10))
  = Some (Returns [ {| err_index := 1; err_messages := ["invalid"] |} ])
  ∧ ∃ succeeded evs,
      snd (loop_body sample_float_repr (sample_config 10) world_second_row_rejected
             None (initial_state ∅) (entry_trace (sample_config 10)))
      = entry_trace (sample_config 10) ++ SearchRead 0 10 None :: evs
      ∧ (length succeeded + 1 = 3)%nat
      ∧ deleted_ids evs = map rec_id succeeded.
Proof.
  split; [reflexivity|].
  destruct (partial_failure_isolated sample_float_repr (sample_config 10)
              world_second_row_rejected None (initial_state ∅)
              (entry_trace (sample_config 10))
              [ {| err_index := 1; err_messages := ["invalid"] |} ])
    as (succeeded & evs & Htr & _ & Hlen & _ & _ & Hdel & _).
  - reflexivity.
  - discriminate.
  - intros i Hi. unfold failed_indices_of in Hi. simpl in Hi.
    apply elem_of_union in Hi as [Hi%elem_of_singleton | Hi%elem_of_empty]; [|done].
    subst i. vm_compute. lia.
  - vm_compute. repeat constructor; set_solver.
  - exists succeeded, evs. split; [exact Htr|]. split; [exact Hlen|exact Hdel].
Defined.

(** The bootstrap scenario: the sample record with id 5, active false
    and an empty tag list. *)
Lemma bootstrap_emits_create_table_witness :
  bq_get_table world_no_table [] = Raises
  ∧ odoo_search_read_sample world_no_table [GetTable "proj.sales.orders"]
    = Returns [bootstrap_sample]
  ∧ split_on "." (BQ_TABLE_ID (sample_config 10)) = ["proj"; "sales"; "orders"]
  ∧ run_sync sample_float_repr (sample_config 10) world_no_table 100 []
    = (Some Bootstrapped,
       [GetTable "proj.sales.orders"; SearchReadSample;
        Print ("CREATE TABLE `proj.sales.orders` (" +:+ newline
               +:+ "  id INTEGER," +:+ newline
               +:+ "  active STRING," +:+ newline
               +:+ "  tags STRING" +:+ newline +:+ ");");
        Print "CREATE TABLE `proj.sales.orders` ( id INTEGER, active STRING, tags STRING );"]).
Proof.
  split; [reflexivity|]. split; [reflexivity|]. split; [reflexivity|].
  apply (bootstrap_emits_create_table sample_float_repr (sample_config 10)
           world_no_table 100 bootstrap_sample [] "proj" "sales" "orders");
    reflexivity.
Defined.

(** With one order per page and no end of orders, the run stops after its
    hundredth fetch. *)
Lemma at_most_100_page_fetches_witness :
  (100 ≤ 100)%nat
  ∧ ∃ result tr,
      run_sync sample_float_repr (sample_config 1) world_sink_down 100 [] = (Some result, tr)
      ∧ (length (fetch_calls tr) ≤ 100)%nat.
Proof.
  split; [lia|].
  destruct (at_most_100_page_fetches sample_float_repr (sample_config 1)
              world_sink_down 100)
    as (result & tr & Hrun & Hcount & _); [lia|].
  exists result, tr. split; [exact Hrun|exact Hcount].
Defined.

(** The first page of the run against the failing sink. *)
Lemma insert_exception_abandons_page_witness :
  page_insert_answer sample_float_repr (sample_config 1) world_sink_down
    None (initial_state ∅) (entry_trace (sample_config 1)) = Some Raises
  ∧ existing_ids
      (snd (fst (loop_body sample_float_repr (sample_config 1) world_sink_down
                   None (initial_state ∅) (entry_trace (sample_config 1)))))
    = ∅
  ∧ offset
      (snd (fst (loop_body sample_float_repr (sample_config 1) world_sink_down
                   None (initial_state ∅) (entry_trace (sample_config 1)))))
    = 1.
Proof.
  split; [reflexivity|].
  destruct (insert_exception_abandons_page sample_float_repr (sample_config 1)
              world_sink_down None (initial_state ∅) (entry_trace (sample_config 1)))
    as (Hids & _ & _ & Hoff & _); [reflexivity|].
  split; [exact Hids|exact Hoff].
Defined.

(** On its hundredth page the same run meets the raising insert once
    more, and the loop ends there: no page is fetched at offset 100. *)
Lemma raising_insert_on_last_page_ends_loop :
  fst (fst (run_state sample_float_repr (sample_config 1) world_sink_down 99)) = Continue
  ∧ offset (snd (fst (run_state sample_float_repr (sample_config 1) world_sink_down 99)))
    = 99
  ∧ page_insert_answer sample_float_repr (sample_config 1) world_sink_down None
      (snd (fst (run_state sample_float_repr (sample_config 1) world_sink_down 99)))
      (snd (run_state sample_float_repr (sample_config 1) world_sink_down 99))
    = Some Raises
  ∧ fst (fst (loop_body sample_float_repr (sample_config 1) world_sink_down None
                (snd (fst (run_state sample_float_repr (sample_config 1) world_sink_down 99)))
                (snd (run_state sample_float_repr (sample_config 1) world_sink_down 99))))
    = StopSafetyCap
  ∧ fetch_calls (snd (run_sync sample_float_repr (sample_config 1) world_sink_down 200 []))
    = map (λ i, SearchRead (Z.of_nat i) 1 None) (seq 0 100).
Proof.
  vm_compute. repeat split.
Qed.

(** The run over three orders ends with the ids the destination listed
    still in the set. *)
Lemma existing_ids_only_grow_witness :
  ∃ why st tr,
    run_sync sample_float_repr (sample_config 10) world_three_orders 100 []
    = (Some (Synced why st), tr)
    ∧ existing_ids
        (snd (fst (run_state sample_float_repr (sample_config 10) world_three_orders 0)))
      ⊆ existing_ids st.
Proof.
  destruct (existing_ids_only_grow sample_float_repr (sample_config 10) world_three_orders)
    as (_ & _ & _ & Hrun).
  destruct (run_sync sample_float_repr (sample_config 10) world_three_orders 100 [])
    as [[[|why st]|] tr] eqn:Hout.
  - vm_compute in Hout. discriminate.
  - exists why, st, tr. split; [reflexivity|]. exact (proj2 (Hrun 100%nat why st tr Hout)).
  - vm_compute in Hout. discriminate.
Defined.

(** No insert raises in the run over three orders, and its summary
    balances. *)
Lemma accounting_identity_witness :
  (∀ n,
     fst (fst (run_state sample_float_repr (sample_config 10) world_three_orders n))
     = Continue →
     page_insert_answer sample_float_repr (sample_config 10) world_three_orders
       (entry_window (sample_config 10) world_three_orders)
       (snd (fst (run_state sample_float_repr (sample_config 10) world_three_orders n)))
       (snd (run_state sample_float_repr (sample_config 10) world_three_orders n))
     ≠ Some Raises)
  ∧ ∃ why st tr,
      run_sync sample_float_repr (sample_config 10) world_three_orders 100 []
      = (Some (Synced why st), tr)
      ∧ total_fetched st = accounted st.
Proof.
  assert (Hok : ∀ n,
     fst (fst (run_state sample_float_repr (sample_config 10) world_three_orders n))
     = Continue →
     page_insert_answer sample_float_repr (sample_config 10) world_three_orders
       (entry_window (sample_config 10) world_three_orders)
       (snd (fst (run_state sample_float_repr (sample_config 10) world_three_orders n)))
       (snd (run_state sample_float_repr (sample_config 10) world_three_orders n))
     ≠ Some Raises).
  { intros n _. unfold page_insert_answer.
    destruct (nonempty _); [|discriminate]. simpl. discriminate. }
  split; [exact Hok|].
  destruct (accounting_identity sample_float_repr (sample_config 10) world_three_orders)
    as (_ & Hrun).
  destruct (Hrun Hok) as (_ & Hfinal).
  destruct (run_sync sample_float_repr (sample_config 10) world_three_orders 100 [])
    as [[[|why st]|] tr] eqn:Hout.
  - vm_compute in Hout. discriminate.
  - exists why, st, tr. split; [reflexivity|]. exact (Hfinal 100%nat why st tr Hout).
  - vm_compute in Hout. discriminate.
Defined.

(** * Further properties *)

(** ** What the sanitizer keeps and what it produces *)

Section SanitizerInvariants.

Variable float_repr : spec_float → string.

Local Abbreviation sanitize := (sanitize_value float_repr).
Local Abbreviation sanitize_record := (sanitize_record_for_bq float_repr).

Lemma sanitize_scalar (v : pyvalue) : is_scalar (sanitize v) = true.
Proof.
  destruct v as [| b | n | x | s | l | d]; try reflexivity.
  - by destruct b.
  - rewrite sanitize_str. destruct (all_space s) eqn:Hs; [done|]. simpl. by rewrite Hs.
  - rewrite sanitize_list. destruct l as [|v l]; [done|].
    cbn [is_scalar]. by rewrite json_container_not_blank.
  - rewrite sanitize_dict. destruct d as [|kv d]; [done|].
    cbn [is_scalar]. by rewrite json_container_not_blank.
Qed.

(** X1: a sanitized record has the fields of its source, in the same
    order, and under each key the sanitizer's image of the source value:
    no field is added, dropped, renamed or moved. *)
Theorem sanitize_record_keeps_fields (record : pydict) :
  map fst (sanitize_record record) = map fst record
  ∧ length (sanitize_record record) = length record
  ∧ ∀ key, dict_get key (sanitize_record record) = sanitize <$> dict_get key record.
Proof.
  unfold sanitize_record_for_bq. split; [|split].
  - rewrite map_map. simpl. reflexivity.
  - apply length_map.
  - intros key. induction record as [|[k v] record IH]; [done|].
    simpl. destruct (String.eqb k key); [done|]. exact IH.
Qed.

(** X2: every value of a sanitized record is null, an integer, a float or
    a string that is not blank; no boolean, list, object, empty or
    whitespace-only string is left. *)
Theorem sanitize_record_scalars_only (record : pydict) (key : string) (v : pyvalue) :
  (key, v) ∈ sanitize_record record →
  is_scalar v = true.
Proof.
  unfold sanitize_record_for_bq. change (map ?f ?l) with (f <$> l).
  intros ([k v0] & [= -> ->] & _)%list_elem_of_fmap. apply sanitize_scalar.
Qed.

(** X3: the sanitizer leaves a value as it is exactly when the value is
    already null, an integer, a float or a non-blank string; every other
    value is changed. *)
Theorem sanitize_fixes_exactly_scalars (v : pyvalue) :
  sanitize v = v ↔ is_scalar v = true.
Proof.
  destruct v as [| b | n | x | s | l | d]; try (by split).
  - rewrite sanitize_str. simpl. destruct (all_space s); by split.
  - rewrite sanitize_list. by destruct l.
  - rewrite sanitize_dict. by destruct d.
Qed.

(** X4: the column type inferred from a raw value fits what the sanitizer
    writes for it: an integer goes to an INTEGER column, a float to a
    FLOAT64 column, and whatever is written as a string was given a STRING
    column; null fits any column. *)
Theorem inferred_type_fits_sanitized (v : pyvalue) :
  match sanitize v with
  | VNone => True
  | VInt _ => python_type_to_bq v = "INTEGER"
  | VFloat _ => python_type_to_bq v = "FLOAT64"
  | VStr _ => python_type_to_bq v = "STRING"
  | VBool _ | VList _ | VDict _ => False
  end.
Proof.
  destruct v as [| b | n | x | s | l | d]; try done.
  - rewrite sanitize_str. by destruct (all_space s).
  - by destruct l.
  - by destruct d.
Qed.

End SanitizerInvariants.

(** The record of the bootstrap scenario, sanitized. *)
Lemma sanitize_record_scalars_only_witness :
  ("active", VStr "false") ∈ sanitize_record_for_bq sample_float_repr (items bootstrap_sample)
  ∧ is_scalar (VStr "false") = true.
Proof.
  assert (Hin : ("active", VStr "false")
                ∈ sanitize_record_for_bq sample_float_repr (items bootstrap_sample)).
  { simpl. apply list_elem_of_further, list_elem_of_here. }
  split; [exact Hin|].
  exact (sanitize_record_scalars_only sample_float_repr (items bootstrap_sample)
           "active" (VStr "false") Hin).
Defined.

(** ** Pages and runs *)

Section RunInvariants.

Variable float_repr : spec_float → string.
Variable cfg : config.
Variable w : world.

Local Abbreviation body := (loop_body float_repr cfg w).
Local Abbreviation state_after := (run_state float_repr cfg w).

(** A property of state and log that holds on entering the loop and that
    every iteration keeps holds all along the run and at its summary. *)
Lemma run_state_invariant (P : sync_state → trace → Prop) :
  P (initial_state (entry_existing cfg w)) (entry_trace cfg) →
  (∀ st tr, P st tr →
            P (snd (fst (body (entry_window cfg w) st tr)))
              (snd (body (entry_window cfg w) st tr))) →
  ∀ n, P (snd (fst (state_after n))) (snd (state_after n)).
Proof.
  intros Hentry Hstep. induction n as [|n IH]; [exact Hentry|].
  unfold run_state in *. rewrite iterate_body_S.
  destruct (fst (fst (iterate_body _ _ _ _ n _ _))); [|exact IH..].
  by apply Hstep.
Qed.

Lemma run_sync_invariant (P : sync_state → trace → Prop) :
  P (initial_state (entry_existing cfg w)) (entry_trace cfg) →
  (∀ st tr, P st tr →
            P (snd (fst (body (entry_window cfg w) st tr)))
              (snd (body (entry_window cfg w) st tr))) →
  ∀ fuel why st tr,
    run_sync float_repr cfg w fuel [] = (Some (Synced why st), tr) → P st tr.
Proof.
  intros Hentry Hstep fuel why st tr Hrun.
  destruct (run_sync_run_state float_repr cfg w fuel why st tr Hrun) as [n Hn].
  pose proof (run_state_invariant P Hentry Hstep n) as HP. by rewrite Hn in HP.
Qed.

Lemma deleted_ids_app (tr1 tr2 : trace) :
  deleted_ids (tr1 ++ tr2) = deleted_ids tr1 ++ deleted_ids tr2.
Proof. unfold deleted_ids. apply flat_map_app. Qed.

Lemma rows_sent_app (tr1 tr2 : trace) :
  rows_sent (tr1 ++ tr2) = rows_sent tr1 ++ rows_sent tr2.
Proof. unfold rows_sent. apply flat_map_app. Qed.

Lemma keys_sent_app (tr1 tr2 : trace) :
  keys_sent (tr1 ++ tr2) = keys_sent tr1 ++ keys_sent tr2.
Proof. unfold keys_sent. apply flat_map_app. Qed.


Lemma unlink_events_disabled (count : Z) (synced : list record) :
  DELETE_SYNCED_RECORDS cfg = false → unlink_events cfg count synced = [].
Proof. intros Hoff. unfold unlink_events. by rewrite Hoff. Qed.


(** X5: when [search_read] raises, or returns no record, the iteration
    logs the fetch and leaves the loop for the summary: the offset, the five
    counters and the id set are what they were, and nothing is sent to the
    sink or deleted. *)
Theorem failed_fetch_ends_run_quietly
    (window : option date_filter) (st : sync_state) (tr : trace) (fuel : nat) :
  odoo_search_read w tr (offset st) (BATCH_LIMIT cfg) window = Raises
  ∨ odoo_search_read w tr (offset st) (BATCH_LIMIT cfg) window = Returns [] →
  body window st tr
  = (StopEmptyPage, st, tr ++ [SearchRead (offset st) (BATCH_LIMIT cfg) window])
  ∧ while_true float_repr cfg w window (S fuel) st tr
    = (Some (StopEmptyPage, st),
       tr ++ [SearchRead (offset st) (BATCH_LIMIT cfg) window]).
Proof.
  intros Hfetch.
  assert (Hbody : body window st tr
                  = (StopEmptyPage, st,
                     tr ++ [SearchRead (offset st) (BATCH_LIMIT cfg) window])).
  { apply loop_body_empty. rewrite fetch_records_batch_eq. simpl.
    by destruct Hfetch as [-> | ->]. }
  split; [exact Hbody|]. by rewrite while_true_S, Hbody.
Qed.

(** X6: when the bulk insert of a page of N new records returns no error,
    all N ids join the existing-id set, the inserted counter grows by N,
    the failed counter stays, and with deletion enabled the N ids, in page
    order, are the ids handed to the delete call. *)
Theorem full_success_marks_all
    (window : option date_filter) (st : sync_state) (tr : trace) :
  let nr := page_new_records cfg w window st tr in
  let result := body window st tr in
  let st' := snd (fst result) in
  page_insert_answer float_repr cfg w window st tr = Some (Returns []) →
  existing_ids st' = existing_ids st ∪ list_to_set (map rec_id nr)
  ∧ total_inserted st' = total_inserted st + len nr
  ∧ total_failed st' = total_failed st
  ∧ ∃ evs,
      snd result = tr ++ SearchRead (offset st) (BATCH_LIMIT cfg) window :: evs
      ∧ rows_sent evs = sanitized_of float_repr nr
      ∧ deleted_ids evs = (if DELETE_SYNCED_RECORDS cfg then map rec_id nr else []).
Proof.
  intros nr result st' Ha. subst result st'.
  destruct (loop_body_insert float_repr cfg w window st tr _ Ha) as [deleted ->].
  fold nr. cbn [fst snd].
  split; [simpl; by rewrite add_ids_union|].
  split; [done|]. split; [simpl; lia|].
  exists (page_events float_repr cfg nr (Returns [])).
  split; [done|]. split; [apply rows_sent_page_events|].
  unfold page_events. cbn [nonempty]. simpl deleted_ids.
  by apply deleted_ids_unlink_events.
Qed.

Lemma enumerate_from_filter_all {A} (F : gset nat) (s : nat) (l : list A) :
  (∀ i, i ∈ F → (s + length l ≤ i)%nat) →
  filter (λ ir, fst ir ∉ F) (enumerate_from s l) = enumerate_from s l.
Proof.
  revert s. induction l as [|x l IH]; intros s Hout; [done|].
  simpl. rewrite filter_cons. simpl. destruct (decide (s ∉ F)) as [_|Hin].
  - f_equal. apply IH. intros i Hi. specialize (Hout i Hi). simpl in Hout. lia.
  - exfalso. apply Hin. intros Hs. specialize (Hout s Hs). simpl in Hout. lia.
Qed.

Lemma succeeded_of_out_of_range (F : gset nat) (nr : list record) :
  (∀ i, i ∈ F → (length nr ≤ i)%nat) → succeeded_of F nr = nr.
Proof.
  intros Hout. unfold succeeded_of, enumerate.
  rewrite enumerate_from_filter_all; [|by intros i Hi; simpl; apply Hout].
  generalize 0%nat. induction nr as [|x l IH]; intros s; simpl; [done|].
  f_equal. apply IH. intros i Hi. specialize (Hout i Hi). simpl in Hout. lia.
Qed.

(** X7: error positions that lie outside the page fail no record. When
    every index of a non-empty error list is at or beyond the page length
    N, all N ids are marked synced and, if deletion is on and N exceeds the
    number k of distinct indices, all N are handed to the delete call,
    though the counters record k failures and N - k inserts. *)
Theorem out_of_range_errors_fail_no_record
    (window : option date_filter) (st : sync_state) (tr : trace)
    (errors : list insert_error) :
  let nr := page_new_records cfg w window st tr in
  let failed := failed_indices_of errors in
  let result := body window st tr in
  let st' := snd (fst result) in
  page_insert_answer float_repr cfg w window st tr = Some (Returns errors) →
  errors ≠ [] →
  (∀ i, i ∈ failed → (length nr ≤ i)%nat) →
  existing_ids st' = existing_ids st ∪ list_to_set (map rec_id nr)
  ∧ total_failed st' = total_failed st + Z.of_nat (size failed)
  ∧ total_inserted st' = total_inserted st + (len nr - Z.of_nat (size failed))
  ∧ ∃ evs,
      snd result = tr ++ SearchRead (offset st) (BATCH_LIMIT cfg) window :: evs
      ∧ deleted_ids evs
        = (if DELETE_SYNCED_RECORDS cfg && (len nr - Z.of_nat (size failed) >? 0)
           then map rec_id nr else []).
Proof.
  intros nr failed result st' Ha Herrors Hout. subst result st'.
  destruct (loop_body_insert float_repr cfg w window st tr _ Ha) as [deleted ->].
  fold nr. cbn [fst snd].
  assert (Hne : nonempty errors = true) by (by destruct errors).
  pose proof (succeeded_of_out_of_range failed nr Hout) as Hsucc.
  split; [simpl; rewrite Hne; fold failed; by rewrite Hsucc, add_ids_union|].
  split; [simpl; by rewrite Hne|].
  split; [simpl; by rewrite Hne|].
  exists (page_events float_repr cfg nr (Returns errors)). split; [done|].
  unfold page_events. rewrite Hne. fold failed. rewrite Hsucc.
  simpl deleted_ids. unfold unlink_events.
  destruct (DELETE_SYNCED_RECORDS cfg && _); simpl; [by rewrite app_nil_r|done].
Qed.

(** X8: the idempotency keys of a bulk insert. The call carries one key
    per row, in row order, each the model name, an underscore and the
    decimal id of the record; two records get the same key only if they
    have the same id. *)
Theorem insert_ids_follow_record_ids (nr : list record) :
  insert_call float_repr cfg nr
  = InsertRowsJson (BQ_TABLE_ID cfg) (sanitized_of float_repr nr)
      (map (λ r, ODOO_MODEL cfg +:+ "_" +:+ pretty (rec_id r)) nr)
  ∧ length (map (λ r, ODOO_MODEL cfg +:+ "_" +:+ pretty (rec_id r)) nr)
    = length (sanitized_of float_repr nr)
  ∧ ∀ r1 r2 : record,
      ODOO_MODEL cfg +:+ "_" +:+ pretty (rec_id r1)
      = ODOO_MODEL cfg +:+ "_" +:+ pretty (rec_id r2) →
      rec_id r1 = rec_id r2.
Proof.
  split; [|split].
  - unfold insert_call. rewrite rows_to_insert_rows. f_equal.
    unfold rows_to_insert_of, sanitized_of. rewrite !map_map. by apply map_ext.
  - unfold sanitized_of. by rewrite !length_map.
  - intros r1 r2 Hkey. apply String.app_inj in Hkey. simpl in Hkey.
    injection Hkey as Hdigits. by apply (inj pretty).
Qed.

(** The iteration over a non-empty batch, in terms of the insert block. *)
Lemma loop_body_unfold (window : option date_filter) (st : sync_state) (tr : trace) :
  let batch := fst (fetch_records_batch w (offset st) (BATCH_LIMIT cfg) window tr) in
  let nr := new_records_of (existing_ids st) batch in
  let tr1 := tr ++ [SearchRead (offset st) (BATCH_LIMIT cfg) window] in
  let page := if nonempty nr
              then insert_new_records float_repr cfg w (counted st batch) nr tr1
              else (counted st batch, tr1) in
  batch ≠ [] →
  snd (fst (body window st tr)) = advanced cfg (fst page)
  ∧ snd (body window st tr) = snd page.
Proof.
  intros batch nr tr1 page Hbatch. subst page nr batch. revert Hbatch.
  unfold loop_body, mbind, M_bind. rewrite !fetch_records_batch_eq. cbn [fst snd].
  fold tr1.
  set (b := match odoo_search_read w tr _ _ _ with
            | Returns records => records
            | Raises => []
            end).
  intros Hbatch.
  replace (nonempty b) with true by (by destruct b).
  change (negb true) with false. cbv beta iota.
  destruct (nonempty (new_records_of (existing_ids st) b)).
  - destruct (insert_new_records float_repr cfg w (counted st b) _ tr1) as [st2 tr2].
    cbn [fst snd]. unfold mret, M_ret.
    by destruct (offset (advanced cfg st2) >=? BATCH_LIMIT cfg * 100).
  - unfold mret, M_ret. cbv beta iota. cbn [fst snd].
    by destruct (offset (advanced cfg (counted st b)) >=? BATCH_LIMIT cfg * 100).
Qed.

Lemma delete_from_odoo_total (count : Z) (synced : list record) (deleted : Z) (tr : trace) :
  let deleted' := fst (delete_from_odoo cfg w count synced deleted tr) in
  let handed := len (deleted_ids (unlink_events cfg count synced)) in
  (deleted' = deleted ∨ deleted' = deleted + handed)
  ∧ ((∀ tr ids, odoo_unlink w tr ids ≠ Raises) → deleted' = deleted + handed)
  ∧ (DELETE_SYNCED_RECORDS cfg = false → deleted' = deleted).
Proof.
  unfold delete_from_odoo, unlink_events. unfold_monad.
  destruct (DELETE_SYNCED_RECORDS cfg) eqn:Hflag; simpl;
    [destruct (count >? 0); simpl|].
  - rewrite app_nil_r. unfold len. rewrite !length_map.
    destruct (odoo_unlink w tr (map rec_id synced)) eqn:Hun; simpl.
    + split; [by right|]. split; [done|done].
    + split; [by left|]. split; [|done]. intros Hnever. by destruct (Hnever _ _ Hun).
  - split; [by left|]. split; [|done]. intros _. unfold len. simpl. lia.
  - split; [by left|]. split; [|done]. intros _. unfold len. simpl. lia.
Qed.

(** How [total_deleted] moves over one iteration, against the ids the
    iteration hands to [unlink]. *)
Lemma loop_body_total_deleted (window : option date_filter) (st : sync_state) (tr : trace) :
  let st' := snd (fst (body window st tr)) in
  ∃ evs,
    snd (body window st tr) = tr ++ evs
    ∧ (total_deleted st' = total_deleted st
       ∨ total_deleted st' = total_deleted st + len (deleted_ids evs))
    ∧ ((∀ tr ids, odoo_unlink w tr ids ≠ Raises) →
       total_deleted st' = total_deleted st + len (deleted_ids evs))
    ∧ (DELETE_SYNCED_RECORDS cfg = false → total_deleted st' = total_deleted st).
Proof.
  intros st'. subst st'.
  destruct (fst (fetch_records_batch w (offset st) (BATCH_LIMIT cfg) window tr))
    as [|r0 batch'] eqn:Hbatch.
  { rewrite (loop_body_empty float_repr cfg w window st tr Hbatch). cbn [fst snd].
    eexists. split; [done|]. unfold len. simpl.
    split; [by left|]. split; [intros _; lia|done]. }
  destruct (loop_body_unfold window st tr) as [Hst Htr]; [by rewrite Hbatch|].
  rewrite Hst, Htr, Hbatch. clear Hst Htr.
  set (batch := r0 :: batch').
  set (nr := new_records_of (existing_ids st) batch).
  set (tr1 := tr ++ [SearchRead (offset st) (BATCH_LIMIT cfg) window]).
  destruct (nonempty nr).
  2:{ cbn [fst snd]. exists [SearchRead (offset st) (BATCH_LIMIT cfg) window].
      split; [done|]. unfold len. simpl.
      split; [by left|]. split; [intros _; lia|done]. }
  unfold insert_new_records. unfold_monad.
  destruct (bq_insert_rows_json w tr1 _ _) as [errors|].
  2:{ cbn [fst snd]. eexists. split; [subst tr1; by rewrite <- app_assoc|].
      unfold len. simpl. split; [by left|]. split; [intros _; lia|done]. }
  destruct (nonempty errors).
  - match goal with
    | |- context [delete_from_odoo cfg w ?c ?s ?d ?t] =>
        pose proof (delete_from_odoo_total c s d t) as Htotal;
        destruct (delete_from_odoo_eq cfg w c s d t) as [d' Heq]
    end.
    rewrite Heq in Htotal |- *. cbn [fst snd] in *.
    eexists. split; [subst tr1; by rewrite <- !app_assoc|].
    simpl deleted_ids. exact Htotal.
  - match goal with
    | |- context [delete_from_odoo cfg w ?c ?s ?d ?t] =>
        pose proof (delete_from_odoo_total c s d t) as Htotal;
        destruct (delete_from_odoo_eq cfg w c s d t) as [d' Heq]
    end.
    rewrite Heq in Htotal |- *. cbn [fst snd] in *.
    eexists. split; [subst tr1; by rewrite <- !app_assoc|].
    simpl deleted_ids. exact Htotal.
Qed.

(** X9: with deletion switched off a run that reaches its summary has
    made no [unlink] call at all, and reports zero deleted. *)
Theorem deletion_off_never_unlinks (fuel : nat) (why : control) (st : sync_state) (tr : trace) :
  DELETE_SYNCED_RECORDS cfg = false →
  run_sync float_repr cfg w fuel [] = (Some (Synced why st), tr) →
  List.filter is_unlink tr = [] ∧ deleted_ids tr = [] ∧ total_deleted st = 0.
Proof.
  intros Hoff.
  apply (run_sync_invariant
           (λ st tr, List.filter is_unlink tr = [] ∧ deleted_ids tr = []
                     ∧ total_deleted st = 0)); [done|].
  clear fuel why st tr. intros st tr (Hcalls & Hids & Hzero).
  destruct (loop_body_total_deleted (entry_window cfg w) st tr) as (_ & _ & _ & _ & Hsame).
  rewrite (Hsame Hoff), Hzero.
  destruct (loop_body_shapes float_repr cfg w (entry_window cfg w) st tr)
    as [(_ & _ & ->) | [(_ & _ & ->) | (a & deleted & _ & _ & ->)]]; cbn [fst snd].
  - by rewrite List.filter_app, deleted_ids_app, Hcalls, Hids.
  - by rewrite List.filter_app, deleted_ids_app, Hcalls, Hids.
  - rewrite List.filter_app, deleted_ids_app, Hcalls, Hids.
    unfold page_events.
    destruct a as [errors|]; [|done].
    destruct (nonempty errors); by rewrite unlink_events_disabled.
Qed.



Lemma new_records_none (existing : gset Z) (batch : list record) :
  (∀ r, r ∈ batch → rec_id r ∈ existing) → new_records_of existing batch = [].
Proof.
  unfold new_records_of. induction batch as [|r batch IH]; intros Hall; [done|].
  rewrite filter_cons. destruct (decide (rec_id r ∉ existing)) as [Hnew|_].
  - exfalso. apply Hnew, Hall. apply list_elem_of_here.
  - apply IH. intros r' Hr'. apply Hall. by apply list_elem_of_further.
Qed.

Lemma fetched_batch_from_source (window : option date_filter) (st : sync_state)
    (tr : trace) (r : record) :
  r ∈ fst (fetch_records_batch w (offset st) (BATCH_LIMIT cfg) window tr) →
  ∃ rs, odoo_search_read w tr (offset st) (BATCH_LIMIT cfg) window = Returns rs ∧ r ∈ rs.
Proof.
  rewrite fetch_records_batch_eq. simpl.
  destruct (odoo_search_read w tr _ _ _) as [rs|]; [eauto|by intros ?%elem_of_nil].
Qed.

(** X12: a run over a source that holds nothing new writes nothing. If
    every record the source returns has an id the destination listed at the
    start, the run sends no row to the sink and no id to [unlink]; at the
    summary inserted and failed are zero, skipped equals fetched, and the
    existing-id set is the one the run started with. *)
Theorem rerun_without_news_writes_nothing
    (fuel : nat) (why : control) (st : sync_state) (tr : trace) :
  (∀ tr offset limit window rs r,
     odoo_search_read w tr offset limit window = Returns rs →
     r ∈ rs → rec_id r ∈ entry_existing cfg w) →
  run_sync float_repr cfg w fuel [] = (Some (Synced why st), tr) →
  total_inserted st = 0 ∧ total_failed st = 0
  ∧ total_skipped st = total_fetched st
  ∧ rows_sent tr = [] ∧ deleted_ids tr = []
  ∧ existing_ids st = entry_existing cfg w.
Proof.
  intros Hold.
  apply (run_sync_invariant
           (λ st tr, total_inserted st = 0 ∧ total_failed st = 0
                     ∧ total_skipped st = total_fetched st
                     ∧ rows_sent tr = [] ∧ deleted_ids tr = []
                     ∧ existing_ids st = entry_existing cfg w)); [done|].
  clear fuel why st tr. intros st tr (Hins & Hfail & Hskip & Hrows & Hdel & Hids).
  assert (Hnr : page_new_records cfg w (entry_window cfg w) st tr = []).
  { unfold page_new_records. apply new_records_none. intros r Hr.
    apply fetched_batch_from_source in Hr as (rs & Hrs & Hr).
    rewrite Hids. by eapply Hold. }
  assert (Hnone : page_insert_answer float_repr cfg w (entry_window cfg w) st tr = None).
  { unfold page_insert_answer. by rewrite Hnr. }
  destruct (loop_body_shapes float_repr cfg w (entry_window cfg w) st tr)
    as [(_ & _ & ->) | [(_ & _ & ->) | (a & deleted & _ & Hsome & _)]];
    [| |congruence]; cbn [fst snd].
  - by rewrite rows_sent_app, deleted_ids_app, Hrows, Hdel.
  - rewrite rows_sent_app, deleted_ids_app, Hrows, Hdel. simpl.
    unfold page_new_records in Hnr. rewrite Hnr. unfold len at 2. simpl.
    repeat split; try done. lia.
Qed.

(** X13: over an iteration the fetched, skipped, failed and deleted
    counters never go down; the inserted counter never goes down either
    when the error indices the sink reports are positions of the page. *)
Theorem counters_never_decrease
    (window : option date_filter) (st : sync_state) (tr : trace) :
  let st' := snd (fst (body window st tr)) in
  total_fetched st ≤ total_fetched st'
  ∧ total_skipped st ≤ total_skipped st'
  ∧ total_failed st ≤ total_failed st'
  ∧ total_deleted st ≤ total_deleted st'
  ∧ ((∀ errors i,
        page_insert_answer float_repr cfg w window st tr = Some (Returns errors) →
        i ∈ failed_indices_of errors →
        (i < length (page_new_records cfg w window st tr))%nat) →
     total_inserted st ≤ total_inserted st').
Proof.
  intros st'. subst st'.
  assert (Hdel : total_deleted st ≤ total_deleted (snd (fst (body window st tr)))).
  { destruct (loop_body_total_deleted window st tr) as (evs & _ & [-> | ->] & _);
      unfold len; lia. }
  revert Hdel.
  set (batch := fst (fetch_records_batch w (offset st) (BATCH_LIMIT cfg) window tr)).
  pose proof (new_records_duplicates (existing_ids st) batch) as Hdup.
  assert (Hskip : 0 ≤ len batch - len (new_records_of (existing_ids st) batch)).
  { rewrite Hdup. unfold len. lia. }
  destruct (loop_body_shapes float_repr cfg w window st tr)
    as [(_ & _ & ->) | [(_ & _ & ->) | (a & deleted & _ & Ha & ->)]];
    fold batch; cbn [fst snd]; intros Hdel.
  - repeat split; try lia.
  - simpl in *. unfold len in *. repeat split; try lia.
  - destruct a as [errors|]; simpl in *; unfold len in *.
    + split; [lia|]. split; [lia|]. split; [destruct (nonempty errors); lia|].
      split; [done|]. intros Hbound.
      destruct (nonempty errors); [|lia].
      pose proof (succeeded_of_length (failed_indices_of errors)
                    (page_new_records cfg w window st tr)
                    (λ i Hi, Hbound errors i Ha Hi)) as Hlen.
      unfold page_new_records in *. fold batch in Hlen |- *. lia.
    + repeat split; try lia.
Qed.

Lemma keys_sent_unlink_events (count : Z) (synced : list record) :
  keys_sent (unlink_events cfg count synced) = [].
Proof. unfold unlink_events. by destruct (_ && _). Qed.

Lemma page_row_ids (nr : list record) :
  map snd (rows_to_insert_of cfg (sanitized_of float_repr nr))
  = map (λ n, ODOO_MODEL cfg +:+ "_" +:+ pretty n) (map rec_id nr).
Proof.
  unfold rows_to_insert_of, sanitized_of. rewrite !map_map. by apply map_ext.
Qed.

Lemma insert_key_inj (n1 n2 : Z) :
  ODOO_MODEL cfg +:+ "_" +:+ pretty n1 = ODOO_MODEL cfg +:+ "_" +:+ pretty n2 → n1 = n2.
Proof.
  intros Hkey%String.app_inj. simpl in Hkey. injection Hkey as Hdigits.
  by apply (inj pretty).
Qed.

(** X14: against a sink that accepts every row, and a source whose pages
    hold no id twice, a run never uses an idempotency key twice: every
    record is sent at most once. *)
Theorem accepted_rows_sent_once
    (fuel : nat) (why : control) (st : sync_state) (tr : trace) :
  (∀ tr rows row_ids, bq_insert_rows_json w tr rows row_ids = Returns []) →
  (∀ tr offset limit window rs,
     odoo_search_read w tr offset limit window = Returns rs → NoDup (map rec_id rs)) →
  run_sync float_repr cfg w fuel [] = (Some (Synced why st), tr) →
  NoDup (keys_sent tr).
Proof.
  intros Haccept Hpages Hrun.
  enough (Hinv : ∃ sent, keys_sent tr = map (λ n, ODOO_MODEL cfg +:+ "_" +:+ pretty n) sent
                         ∧ NoDup sent ∧ ∀ x, x ∈ sent → x ∈ existing_ids st).
  { destruct Hinv as (sent & -> & Hnd & _).
    change (map ?f ?l) with (f <$> l). apply NoDup_fmap_2; [|done].
    intros n1 n2. apply insert_key_inj. }
  revert fuel why st tr Hrun.
  apply (run_sync_invariant
           (λ st tr, ∃ sent,
              keys_sent tr = map (λ n, ODOO_MODEL cfg +:+ "_" +:+ pretty n) sent
              ∧ NoDup sent ∧ ∀ x, x ∈ sent → x ∈ existing_ids st)).
  { exists []. split; [done|]. split; [constructor|]. by intros x ?%elem_of_nil. }
  intros st tr (sent & Hkeys & Hnd & Hin).
  destruct (loop_body_shapes float_repr cfg w (entry_window cfg w) st tr)
    as [(_ & _ & ->) | [(_ & _ & ->) | (a & deleted & _ & Ha & ->)]]; cbn [fst snd].
  - exists sent. by rewrite keys_sent_app, Hkeys, app_nil_r.
  - exists sent. by rewrite keys_sent_app, Hkeys, app_nil_r.
  - assert (a = Returns []) as ->.
    { unfold page_insert_answer in Ha. destruct (nonempty _); [|done].
      injection Ha as <-. apply Haccept. }
    set (nr := page_new_records cfg w (entry_window cfg w) st tr).
    exists (sent ++ map rec_id nr). split; [|split].
    + rewrite keys_sent_app, Hkeys, map_app. f_equal.
      unfold page_events, insert_call. simpl.
      by rewrite keys_sent_unlink_events, !app_nil_r, page_row_ids.
    + apply NoDup_app. split; [done|]. split.
      * intros x Hx Hx'. change (map rec_id nr) with (rec_id <$> nr) in Hx'.
        apply list_elem_of_fmap in Hx' as (r & -> & Hr).
        apply (new_records_fresh _ _ _ Hr). by apply Hin.
      * unfold nr, page_new_records, new_records_of.
        rewrite fetch_records_batch_eq. simpl.
        destruct (odoo_search_read w tr _ _ _) as [rs|] eqn:Hrs; [|constructor].
        eapply sublist_NoDup; [exact (Hpages _ _ _ _ _ Hrs)|].
        change (map rec_id ?l) with (rec_id <$> l). apply fmap_sublist, sublist_filter.
    + intros x Hx. simpl. rewrite add_ids_union. fold nr.
      apply elem_of_app in Hx as [Hx | Hx]; [set_solver|].
      apply elem_of_union_r. by apply elem_of_list_to_set.
Qed.

End RunInvariants.

(** ** Splitting and joining *)

Lemma append_nil_r (s : string) : s +:+ "" = s.
Proof.
  induction s as [|c s IH]; [done|].
  change (String c (s +:+ "") = String c s). by rewrite IH.
Qed.

Lemma string_of_list_ascii_app (l1 l2 : list ascii) :
  string_of_list_ascii (l1 ++ l2) = string_of_list_ascii l1 +:+ string_of_list_ascii l2.
Proof.
  induction l1 as [|c l1 IH]; [done|].
  change (String c (string_of_list_ascii (l1 ++ l2))
          = String c (string_of_list_ascii l1 +:+ string_of_list_ascii l2)).
  by rewrite IH.
Qed.

(** The field read so far, once one more character is read. *)
Lemma field_snoc (cur : list ascii) (c : ascii) (s : string) :
  string_of_list_ascii (rev (c :: cur)) +:+ s
  = string_of_list_ascii (rev cur) +:+ String c s.
Proof.
  simpl rev. by rewrite string_of_list_ascii_app, append_assoc.
Qed.

Lemma split_on_go_length (sep : ascii) (s : string) (cur : list ascii) :
  length (split_on_go sep cur s) = S (count_char sep s).
Proof.
  revert cur. induction s as [|c s IH]; intros cur; [done|].
  simpl. destruct (Ascii.eqb c sep); simpl; by rewrite IH.
Qed.

Lemma join_cons (sep p : string) (l : list string) :
  l ≠ [] → join sep (p :: l) = p +:+ sep +:+ join sep l.
Proof. by destruct l. Qed.

Lemma split_on_go_nonempty (sep : ascii) (s : string) (cur : list ascii) :
  split_on_go sep cur s ≠ [].
Proof.
  intros Hnil. pose proof (split_on_go_length sep s cur) as Hlen.
  by rewrite Hnil in Hlen.
Qed.

(** Joining the parts of a split with the separator gives the string back. *)
Lemma split_on_go_join (sep : ascii) (s : string) (cur : list ascii) :
  join (String sep "") (split_on_go sep cur s)
  = string_of_list_ascii (rev cur) +:+ s.
Proof.
  revert cur. induction s as [|c s IH]; intros cur.
  - simpl. by rewrite append_nil_r.
  - simpl split_on_go. destruct (Ascii.eqb c sep) eqn:Hc.
    + apply Ascii.eqb_eq in Hc as ->.
      rewrite join_cons by apply split_on_go_nonempty. by rewrite IH.
    + by rewrite IH, field_snoc.
Qed.

Lemma split_on_go_first (sep : ascii) (s : string) (cur : list ascii) :
  contains_char sep s = true →
  ∃ p rest,
    s = p +:+ String sep rest ∧ contains_char sep p = false
    ∧ split_on_go sep cur s
      = (string_of_list_ascii (rev cur) +:+ p) :: split_on_go sep [] rest.
Proof.
  revert cur. induction s as [|c s IH]; intros cur Hin; [done|].
  simpl in *. destruct (Ascii.eqb c sep) eqn:Hc.
  - apply Ascii.eqb_eq in Hc as ->. exists "", s.
    split; [done|]. split; [done|]. by rewrite append_nil_r.
  - destruct (IH (c :: cur) Hin) as (p & rest & -> & Hp & ->).
    exists (String c p), rest. split; [done|]. split; [simpl; by rewrite Hc|].
    by rewrite field_snoc.
Qed.

Lemma contains_char_count (c : ascii) (s : string) :
  contains_char c s = false ↔ count_char c s = 0%nat.
Proof.
  induction s as [|x s IH]; [done|]. simpl.
  destruct (Ascii.eqb x c); simpl; [by split|exact IH].
Qed.

(** X17: the CREATE TABLE text is produced exactly when the table id
    holds two dots, empty parts included; it then names the table id as
    configured, between backquotes, and lists one line per field of the
    record, in the record's order. *)
Theorem create_table_sql_shape (table_id : string) (record : pydict) :
  (is_Some (generate_create_table_sql table_id record)
   ↔ count_char "." table_id = 2%nat)
  ∧ ∀ sql, generate_create_table_sql table_id record = Some sql →
           sql = "CREATE TABLE `" +:+ table_id +:+ "` (" +:+ newline
                 +:+ join ("," +:+ newline) (map ddl_field record)
                 +:+ newline +:+ ");".
Proof.
  pose proof (split_on_go_length "." table_id []) as Hlen.
  pose proof (split_on_go_join "." table_id []) as Hjoin.
  unfold generate_create_table_sql, split_on.
  destruct (split_on_go "." [] table_id) as [|p [|d [|t [|x l]]]]; simpl in Hlen.
  - lia.
  - split; [|done]. split; [by intros [? ?]|lia].
  - split; [|done]. split; [by intros [? ?]|lia].
  - split; [split; [lia|by eexists]|].
    intros sql [= <-].
    assert (Htid : p +:+ "." +:+ d +:+ "." +:+ t = table_id) by exact Hjoin.
    rewrite <- Htid, !append_assoc. reflexivity.
  - split; [|done]. split; [by intros [? ?]|lia].
Qed.

(** X19: the project the BigQuery client is created for is the text of
    the table id before its first dot, without any dot in it, and there is
    none when the table id has no dot; it is the project the CREATE TABLE
    text names whenever that text is produced. *)
Theorem project_id_is_first_part (table_id : string) :
  (BQ_PROJECT_ID table_id = None ↔ count_char "." table_id = 0%nat)
  ∧ (∀ project_id,
       BQ_PROJECT_ID table_id = Some project_id →
       contains_char "." project_id = false
       ∧ ∃ rest, table_id = project_id +:+ "." +:+ rest)
  ∧ (∀ project_id dataset_id table_name,
       split_on "." table_id = [project_id; dataset_id; table_name] →
       BQ_PROJECT_ID table_id = Some project_id).
Proof.
  unfold BQ_PROJECT_ID, split_on.
  destruct (contains_char "." table_id) eqn:Hdot.
  - destruct (split_on_go_first "." table_id [] Hdot) as (p & rest & Htid & Hp & Hsplit).
    rewrite Hsplit. simpl hd.
    split; [|split].
    + split; [done|]. intros Hzero%contains_char_count. congruence.
    + intros project_id [= <-]. split; [done|]. by exists rest.
    + by intros project_id dataset_id table_name [= <- _].
  - split; [|split].
    + split; [|done]. intros _. by apply contains_char_count.
    + done.
    + intros project_id dataset_id table_name Hsplit.
      pose proof (split_on_go_length "." table_id []) as Hlen.
      rewrite Hsplit in Hlen. apply contains_char_count in Hdot. simpl in Hlen. lia.
Qed.

(** ** Tokens of the one-line statement *)

Lemma is_token_spec (s : string) :
  is_token s = true ↔ s ≠ "" ∧ has_space s = false.
Proof.
  unfold is_token. rewrite andb_true_iff, !negb_true_iff, String.eqb_neq. done.
Qed.

Lemma has_space_of_list (l : list ascii) :
  Forall (λ c, is_space c = false) l → has_space (string_of_list_ascii l) = false.
Proof.
  induction 1 as [|c l Hc _ IH]; [done|]. simpl. by rewrite Hc, IH.
Qed.

Lemma has_space_chars (s : string) (c : ascii) :
  has_space s = false → c ∈ chars s → is_space c = false.
Proof.
  induction s as [|x s IH]; simpl; [by intros _ ?%elem_of_nil|].
  intros [Hx Hs]%orb_false_elim [-> | Hc]%elem_of_cons; [done|by apply IH].
Qed.

Lemma chars_app (a b : string) : chars (a +:+ b) = chars a ++ chars b.
Proof.
  induction a as [|x a IH]; [done|].
  change (x :: chars (a +:+ b) = x :: (chars a ++ chars b)). by rewrite IH.
Qed.

Lemma field_is_token (cur : list ascii) :
  cur ≠ [] → Forall (λ c, is_space c = false) cur →
  is_token (string_of_list_ascii (rev cur)) = true.
Proof.
  intros Hne Hcur. apply is_token_spec. split.
  - intros Hnil. apply Hne.
    assert (Hrev : rev cur = []).
    { by rewrite <- (list_ascii_of_string_of_list_ascii (rev cur)), Hnil. }
    by rewrite <- (rev_involutive cur), Hrev.
  - apply has_space_of_list. by apply Forall_rev.
Qed.

(** The fields [split()] returns are tokens. *)
Lemma split_ws_go_tokens (s : string) (cur : list ascii) :
  Forall (λ c, is_space c = false) cur →
  Forall (λ t, is_token t = true) (split_ws_go cur s).
Proof.
  revert cur. induction s as [|c s IH]; intros cur Hcur; simpl.
  - destruct cur as [|x cur]; [constructor|].
    constructor; [|constructor]. by apply field_is_token.
  - destruct (is_space c) eqn:Hc.
    + destruct cur as [|x cur]; [by apply IH|].
      constructor; [by apply field_is_token|by apply IH].
    + apply IH. by constructor.
Qed.

Lemma split_ws_go_prefix (t : string) :
  has_space t = false →
  ∀ cur s, split_ws_go cur (t +:+ s) = split_ws_go (rev (chars t) ++ cur) s.
Proof.
  induction t as [|c t IH]; intros Ht cur s; [done|].
  simpl in Ht. apply orb_false_elim in Ht as [Hc Ht].
  change (String c t +:+ s) with (String c (t +:+ s)). simpl split_ws_go.
  rewrite Hc, (IH Ht). simpl. by rewrite <- app_assoc.
Qed.

Lemma token_field (t : string) :
  string_of_list_ascii (rev (rev (chars t) ++ [])) = t.
Proof.
  rewrite app_nil_r, rev_involutive. apply string_of_list_ascii_of_string.
Qed.

Lemma token_chars_nonempty (t : string) : t ≠ "" → rev (chars t) ++ [] ≠ [].
Proof.
  destruct t as [|c t]; [done|]. intros _ Hnil.
  rewrite app_nil_r in Hnil. simpl in Hnil. by destruct (rev (chars t)).
Qed.

Lemma split_ws_go_blank (cur : list ascii) (s : string) :
  cur ≠ [] →
  split_ws_go cur (String " " s) = string_of_list_ascii (rev cur) :: split_ws_go [] s.
Proof. by destruct cur. Qed.

(** Splitting a blank-joined list of tokens gives the tokens back. *)
Lemma split_ws_join (ts : list string) :
  Forall (λ t, is_token t = true) ts → split_ws (join " " ts) = ts.
Proof.
  unfold split_ws. induction 1 as [|t ts Ht Hts IH]; [done|].
  apply is_token_spec in Ht as [Hne Hsp].
  pose proof (token_chars_nonempty t Hne) as Hcur.
  destruct ts as [|t2 ts].
  - simpl join. rewrite <- (append_nil_r t) at 1.
    rewrite (split_ws_go_prefix t Hsp). simpl.
    destruct (rev (chars t) ++ []) eqn:Hc; [done|]. by rewrite <- Hc, token_field.
  - rewrite join_cons by done.
    rewrite (split_ws_go_prefix t Hsp).
    change (" " +:+ ?j) with (String " " j).
    rewrite (split_ws_go_blank _ _ Hcur), token_field. by rewrite IH.
Qed.

Lemma join_tokens_head (ts : list string) :
  ts ≠ [] → Forall (λ t, is_token t = true) ts →
  ∃ c rest, join " " ts = String c rest ∧ is_space c = false.
Proof.
  intros Hne Hts. destruct Hts as [|t ts Ht _]; [done|].
  apply is_token_spec in Ht as [Ht Hsp]. destruct t as [|c t]; [done|].
  simpl in Hsp. apply orb_false_elim in Hsp as [Hc _].
  destruct ts; simpl; eauto.
Qed.

Lemma rstrip_token (t : string) : has_space t = false → rstrip t = t.
Proof.
  induction t as [|c t IH]; [done|]. simpl.
  intros [Hc Ht]%orb_false_elim. rewrite (IH Ht), Hc. by destruct t.
Qed.

Lemma rstrip_append (a b : string) :
  rstrip b = b → b ≠ "" → rstrip (a +:+ b) = a +:+ b.
Proof.
  intros Hb Hne. induction a as [|c a IH]; [done|].
  change (String c a +:+ b) with (String c (a +:+ b)). simpl. rewrite IH.
  assert (Hab : a +:+ b ≠ "") by (destruct a; [exact Hne|discriminate]).
  by destruct (a +:+ b).
Qed.

Lemma rstrip_cons (c : ascii) (s : string) :
  rstrip s = s → s ≠ "" → rstrip (String c s) = String c s.
Proof. intros Hs Hne. simpl. rewrite Hs. by destruct s. Qed.

Lemma rstrip_join_tokens (ts : list string) :
  Forall (λ t, is_token t = true) ts → rstrip (join " " ts) = join " " ts.
Proof.
  induction 1 as [|t ts Ht Hts IH]; [done|].
  apply is_token_spec in Ht as [_ Hsp].
  destruct ts as [|t2 ts]; [by apply rstrip_token|].
  rewrite join_cons by done.
  destruct (join_tokens_head (t2 :: ts)) as (c & rest & Hj & Hc); [done..|].
  apply rstrip_append; [|done].
  change (" " +:+ ?j) with (String " " j).
  apply rstrip_cons; [exact IH|]. by rewrite Hj.
Qed.

Lemma join_tokens_blanks (ts : list string) (c : ascii) :
  Forall (λ t, is_token t = true) ts →
  c ∈ chars (join " " ts) → is_space c = true → c = " "%char.
Proof.
  induction 1 as [|t ts Ht Hts IH]; [by intros ?%elem_of_nil|].
  apply is_token_spec in Ht as [_ Hsp].
  destruct ts as [|t2 ts].
  - simpl. intros Hc Hspace. by rewrite (has_space_chars t c Hsp Hc) in Hspace.
  - rewrite join_cons by done. rewrite chars_app.
    intros [Hc | Hc]%elem_of_app Hspace.
    + by rewrite (has_space_chars t c Hsp Hc) in Hspace.
    + change (" " +:+ ?j) with (String " " j) in Hc. simpl in Hc.
      apply elem_of_cons in Hc as [-> | Hc]; [done|]. by apply IH.
Qed.

(** X18: the one-line form of a statement, [' '.join(sql.split())], has
    the same whitespace-separated tokens as the statement; the only
    whitespace in it is the single blank, so no line break is left, and it
    neither starts nor ends with whitespace. *)
Theorem one_line_keeps_tokens (sql : string) :
  split_ws (join " " (split_ws sql)) = split_ws sql
  ∧ (∀ c, c ∈ chars (join " " (split_ws sql)) → is_space c = true → c = " "%char)
  ∧ strip (join " " (split_ws sql)) = join " " (split_ws sql).
Proof.
  assert (Htokens : Forall (λ t, is_token t = true) (split_ws sql)).
  { apply split_ws_go_tokens. constructor. }
  split; [by apply split_ws_join|].
  split; [intros c; by apply join_tokens_blanks|].
  unfold strip. destruct (split_ws sql) as [|t ts] eqn:Hsplit; [done|].
  destruct (join_tokens_head (t :: ts)) as (c & rest & Hj & Hc); [done..|].
  assert (Hl : lstrip (join " " (t :: ts)) = join " " (t :: ts)).
  { rewrite Hj. simpl. by rewrite Hc. }
  rewrite Hl. by apply rstrip_join_tokens.
Qed.

(** ** The window, the bootstrap branch and the settings *)

Section Startup.

Variable float_repr : spec_float → string.
Variable cfg : config.
Variable w : world.


Lemma generate_create_table_sql_none (table_id : string) (record : pydict) :
  generate_create_table_sql table_id record = None ↔ count_char "." table_id ≠ 2%nat.
Proof.
  pose proof (split_on_go_length "." table_id []) as Hlen.
  unfold generate_create_table_sql, split_on.
  destruct (split_on_go "." [] table_id) as [|p [|d [|t [|x l]]]]; simpl in Hlen;
    split; try done; lia.
Qed.

(** X16: a run that does not find the table touches nothing. After
    [get_table] it makes the one sample fetch and returns: no id query, no
    page fetch, no insert and no delete. It prints either nothing or the
    statement followed by its one-line form, and it prints exactly when the
    sample fetch returned a record and the table id holds two dots. *)
Theorem missing_table_run_touches_nothing (fuel : nat) :
  bq_get_table w [] = Raises →
  fst (run_sync float_repr cfg w fuel []) = Some Bootstrapped
  ∧ calls_made (snd (run_sync float_repr cfg w fuel []))
    = [GetTable (BQ_TABLE_ID cfg); SearchReadSample]
  ∧ (printed (snd (run_sync float_repr cfg w fuel [])) = []
     ∨ ∃ sql, printed (snd (run_sync float_repr cfg w fuel []))
              = [sql; join " " (split_ws sql)])
  ∧ (printed (snd (run_sync float_repr cfg w fuel [])) ≠ []
     ↔ (∃ first rest,
          odoo_search_read_sample w [GetTable (BQ_TABLE_ID cfg)] = Returns (first :: rest))
       ∧ count_char "." (BQ_TABLE_ID cfg) = 2%nat).
Proof.
  intros Htable. rewrite (run_sync_table_missing float_repr cfg w fuel Htable).
  split; [done|]. cbn [snd]. unfold bootstrap. unfold_monad.
  destruct (odoo_search_read_sample w [GetTable (BQ_TABLE_ID cfg)])
    as [[|first rest]|] eqn:Hsample; simpl.
  - split; [done|]. split; [by left|]. split; [done|]. by intros [(? & ? & ?) _].
  - destruct (generate_create_table_sql (BQ_TABLE_ID cfg) (items first))
      as [sql|] eqn:Hsql; simpl.
    + split; [done|]. split; [right; by exists sql|].
      split; [|done]. intros _. split; [by exists first, rest|].
      destruct (decide (count_char "." (BQ_TABLE_ID cfg) = 2%nat)) as [|Hne]; [done|].
      pose proof (proj2 (generate_create_table_sql_none (BQ_TABLE_ID cfg) (items first))
                    Hne).
      congruence.
    + split; [done|]. split; [by left|]. split; [done|].
      intros [_ Hdots]. apply generate_create_table_sql_none in Hsql. done.
  - split; [done|]. split; [by left|]. split; [done|]. by intros [(? & ? & ?) _].
Qed.

(** X21: the verdict of [sync_to_bigquery]. An empty list is a success
    without any call; otherwise the helper makes one bulk insert of the
    records and answers true exactly when the sink returns and reports no
    row error, false both for row errors and for an exception, which it does
    not let through. *)
Theorem sync_to_bigquery_verdict (records : list pydict) (tr : trace) :
  (records = [] → sync_to_bigquery cfg w records tr = (true, tr))
  ∧ (records ≠ [] →
     snd (sync_to_bigquery cfg w records tr)
     = tr ++ [InsertRowsJson (BQ_TABLE_ID cfg) records []]
     ∧ (fst (sync_to_bigquery cfg w records tr) = true
        ↔ bq_insert_rows_json w tr records [] = Returns [])).
Proof.
  unfold sync_to_bigquery. unfold_monad. split.
  - by intros ->.
  - intros Hne. replace (nonempty records) with true by (by destruct records).
    simpl. destruct (bq_insert_rows_json w tr records []) as [[|e errors]|]; simpl;
      (split; [done|]); by split.
Qed.

End Startup.

Ltac each_code_point c :=
  destruct c as [[] [] [] [] [] [] [] []]; vm_compute.

Lemma lower_char_t (c : ascii) :
  lower_char c = "t"%char ↔ c = "t"%char ∨ c = "T"%char.
Proof.
  each_code_point c; split; (try discriminate); (try (by intros [|])); auto.
Qed.

Lemma lower_char_r (c : ascii) :
  lower_char c = "r"%char ↔ c = "r"%char ∨ c = "R"%char.
Proof.
  each_code_point c; split; (try discriminate); (try (by intros [|])); auto.
Qed.

Lemma lower_char_u (c : ascii) :
  lower_char c = "u"%char ↔ c = "u"%char ∨ c = "U"%char.
Proof.
  each_code_point c; split; (try discriminate); (try (by intros [|])); auto.
Qed.

Lemma lower_char_e (c : ascii) :
  lower_char c = "e"%char ↔ c = "e"%char ∨ c = "E"%char.
Proof.
  each_code_point c; split; (try discriminate); (try (by intros [|])); auto.
Qed.

(** X20: deletion after sync is switched on exactly by the four letters
    of true, each in either case; it is off when the variable is unset, and
    for every other text, such as yes, 1, or true with a blank around it. *)
Theorem delete_flag_only_for_true (setting : option string) :
  delete_flag setting = true
  ↔ ∃ t r u e,
      setting = Some (String t (String r (String u (String e ""))))
      ∧ (t = "t"%char ∨ t = "T"%char) ∧ (r = "r"%char ∨ r = "R"%char)
      ∧ (u = "u"%char ∨ u = "U"%char) ∧ (e = "e"%char ∨ e = "E"%char).
Proof.
  unfold delete_flag. rewrite String.eqb_eq. split.
  - destruct setting as [s|]; [|done]. simpl.
    destruct s as [|t [|r [|u [|e [|x s]]]]]; try done.
    intros [= Ht%lower_char_t Hr%lower_char_r Hu%lower_char_u He%lower_char_e].
    by exists t, r, u, e.
  - intros (t & r & u & e & -> & Ht%lower_char_t & Hr%lower_char_r
            & Hu%lower_char_u & He%lower_char_e).
    simpl. by rewrite Ht, Hr, Hu, He.
Qed.

(** ** The further properties on the sample worlds *)

Lemma failed_fetch_ends_run_quietly_witness :
  odoo_search_read world_source_down (entry_trace (sample_config 10))
    (offset (initial_state ∅)) (BATCH_LIMIT (sample_config 10)) None = Raises
  ∧ loop_body sample_float_repr (sample_config 10) world_source_down None
      (initial_state ∅) (entry_trace (sample_config 10))
    = (StopEmptyPage, initial_state ∅,
       entry_trace (sample_config 10) ++ [SearchRead 0 10 None]).
Proof.
  split; [reflexivity|].
  exact (proj1 (failed_fetch_ends_run_quietly sample_float_repr (sample_config 10)
                  world_source_down None (initial_state ∅)
                  (entry_trace (sample_config 10)) 0 (or_introl eq_refl))).
Defined.

Lemma full_success_marks_all_witness :
  page_insert_answer sample_float_repr (sample_config 10) world_three_orders None
    (initial_state ∅) (entry_trace (sample_config 10)) = Some (Returns [])
  ∧ total_inserted
      (snd (fst (loop_body sample_float_repr (sample_config 10) world_three_orders None
                   (initial_state ∅) (entry_trace (sample_config 10)))))
    = 0 + 3.
Proof.
  assert (Ha : page_insert_answer sample_float_repr (sample_config 10) world_three_orders
                 None (initial_state ∅) (entry_trace (sample_config 10))
               = Some (Returns [])) by reflexivity.
  split; [exact Ha|].
  destruct (full_success_marks_all sample_float_repr (sample_config 10) world_three_orders
              None (initial_state ∅) (entry_trace (sample_config 10)) Ha)
    as (_ & Hins & _).
  exact Hins.
Defined.

Lemma out_of_range_errors_fail_no_record_witness :
  page_insert_answer sample_float_repr (sample_config 10) world_stray_error_index None
    (initial_state ∅) (entry_trace (sample_config 10))
  = Some (Returns [ {| err_index := 7; err_messages := ["invalid"] |} ])
  ∧ existing_ids
      (snd (fst (loop_body sample_float_repr (sample_config 10) world_stray_error_index
                   None (initial_state ∅) (entry_trace (sample_config 10)))))
    = ∅ ∪ list_to_set [1; 2; 3]
  ∧ total_failed
      (snd (fst (loop_body sample_float_repr (sample_config 10) world_stray_error_index
                   None (initial_state ∅) (entry_trace (sample_config 10)))))
    = 0 + 1.
Proof.
  split; [reflexivity|].
  destruct (out_of_range_errors_fail_no_record sample_float_repr (sample_config 10)
              world_stray_error_index None (initial_state ∅)
              (entry_trace (sample_config 10))
              [ {| err_index := 7; err_messages := ["invalid"] |} ])
    as (Hids & Hfailed & _).
  - reflexivity.
  - discriminate.
  - intros i Hi. unfold failed_indices_of in Hi. simpl in Hi.
    apply elem_of_union in Hi as [Hi%elem_of_singleton | Hi%elem_of_empty]; [|done].
    subst i. vm_compute. lia.
  - split; [exact Hids|exact Hfailed].
Defined.

Lemma deletion_off_never_unlinks_witness :
  DELETE_SYNCED_RECORDS (sample_config_keep 10) = false
  ∧ ∃ why st tr,
      run_sync sample_float_repr (sample_config_keep 10) world_three_orders 100 []
      = (Some (Synced why st), tr)
      ∧ List.filter is_unlink tr = [] ∧ total_inserted st = 3.
Proof.
  split; [reflexivity|].
  destruct (run_sync sample_float_repr (sample_config_keep 10) world_three_orders 100 [])
    as [[[|why st]|] tr] eqn:Hout.
  - vm_compute in Hout. discriminate.
  - exists why, st, tr. split; [reflexivity|].
    split.
    + exact (proj1 (deletion_off_never_unlinks sample_float_repr (sample_config_keep 10)
                      world_three_orders 100 why st tr eq_refl Hout)).
    + vm_compute in Hout. by injection Hout as <- <- <-.
  - vm_compute in Hout. discriminate.
Defined.



Lemma rerun_without_news_writes_nothing_witness :
  (∀ tr offset limit window rs r,
     odoo_search_read world_already_synced tr offset limit window = Returns rs →
     r ∈ rs → rec_id r ∈ entry_existing (sample_config 10) world_already_synced)
  ∧ ∃ why st tr,
      run_sync sample_float_repr (sample_config 10) world_already_synced 100 []
      = (Some (Synced why st), tr)
      ∧ total_inserted st = 0 ∧ total_skipped st = total_fetched st
      ∧ rows_sent tr = [].
Proof.
  assert (Hold : ∀ tr offset limit window rs r,
     odoo_search_read world_already_synced tr offset limit window = Returns rs →
     r ∈ rs → rec_id r ∈ entry_existing (sample_config 10) world_already_synced).
  { intros tr offset limit window rs r Hrs Hr. simpl in Hrs.
    unfold entry_existing. rewrite get_existing_ids_eq. simpl.
    destruct (offset =? 0); injection Hrs as <-.
    - repeat (apply elem_of_cons in Hr as [-> | Hr]); [set_solver..|].
      by apply elem_of_nil in Hr.
    - by apply elem_of_nil in Hr. }
  split; [exact Hold|].
  destruct (run_sync sample_float_repr (sample_config 10) world_already_synced 100 [])
    as [[[|why st]|] tr] eqn:Hout.
  - vm_compute in Hout. discriminate.
  - exists why, st, tr. split; [reflexivity|].
    destruct (rerun_without_news_writes_nothing sample_float_repr (sample_config 10)
                world_already_synced 100 why st tr Hold Hout)
      as (Hins & _ & Hskip & Hrows & _).
    split; [exact Hins|]. split; [exact Hskip|exact Hrows].
  - vm_compute in Hout. discriminate.
Defined.

Lemma accepted_rows_sent_once_witness :
  (∀ tr rows row_ids, bq_insert_rows_json world_three_orders tr rows row_ids = Returns [])
  ∧ ∃ why st tr,
      run_sync sample_float_repr (sample_config 10) world_three_orders 100 []
      = (Some (Synced why st), tr)
      ∧ keys_sent tr = ["sale.order_1"; "sale.order_2"; "sale.order_3"]
      ∧ NoDup (keys_sent tr).
Proof.
  split; [reflexivity|].
  destruct (run_sync sample_float_repr (sample_config 10) world_three_orders 100 [])
    as [[[|why st]|] tr] eqn:Hout.
  - vm_compute in Hout. discriminate.
  - exists why, st, tr. split; [reflexivity|]. split.
    + vm_compute in Hout. by injection Hout as <- <- <-.
    + apply (accepted_rows_sent_once sample_float_repr (sample_config 10)
               world_three_orders 100 why st tr); [reflexivity| |exact Hout].
      intros tr' offset limit window rs Hrs. simpl in Hrs.
      destruct (offset =? 0); injection Hrs as <-.
      * vm_compute. repeat constructor; set_solver.
      * constructor.
  - vm_compute in Hout. discriminate.
Defined.

Lemma missing_table_run_touches_nothing_witness :
  bq_get_table world_no_table [] = Raises
  ∧ calls_made (snd (run_sync sample_float_repr (sample_config 10) world_no_table 100 []))
    = [GetTable "proj.sales.orders"; SearchReadSample].
Proof.
  split; [reflexivity|].
  exact (proj1 (proj2 (missing_table_run_touches_nothing sample_float_repr
                         (sample_config 10) world_no_table 100 eq_refl))).
Defined.

(** ** Where the ids of the set come from *)

Section MarkedIds.

Variable float_repr : spec_float → string.
Variable cfg : config.
Variable w : world.

(** X22: an id is in the existing-id set at the summary only if the
    destination listed it at the start of the run or a row carrying it was
    handed to the sink during the run; the engine marks nothing synced that
    it did not send. *)
Theorem marked_ids_were_listed_or_sent
    (fuel : nat) (why : control) (st : sync_state) (tr : trace) :
  run_sync float_repr cfg w fuel [] = (Some (Synced why st), tr) →
  ∀ x, x ∈ existing_ids st →
       x ∈ entry_existing cfg w
       ∨ ∃ row, row ∈ rows_sent tr ∧ dict_get "id" row = Some (VInt x).
Proof.
  apply (run_sync_invariant float_repr cfg w
           (λ st tr, ∀ x, x ∈ existing_ids st →
                          x ∈ entry_existing cfg w
                          ∨ ∃ row, row ∈ rows_sent tr
                                   ∧ dict_get "id" row = Some (VInt x))).
  { intros x Hx. by left. }
  clear fuel why st tr. intros st tr Hinv x.
  assert (Hkeep : ∀ evs, x ∈ existing_ids st →
            x ∈ entry_existing cfg w
            ∨ ∃ row, row ∈ rows_sent (tr ++ evs) ∧ dict_get "id" row = Some (VInt x)).
  { intros evs Hx. destruct (Hinv x Hx) as [Hentry | (row & Hrow & Hid)]; [by left|].
    right. exists row. split; [|done]. rewrite rows_sent_app. set_solver. }
  destruct (loop_body_shapes float_repr cfg w (entry_window cfg w) st tr)
    as [(_ & _ & ->) | [(_ & _ & ->) | (a & deleted & _ & _ & ->)]]; cbn [fst snd].
  - apply Hkeep.
  - apply Hkeep.
  - set (nr := page_new_records cfg w (entry_window cfg w) st tr).
    assert (Hnew : ∀ r, r ∈ nr →
              ∃ row, row ∈ rows_sent (tr ++ SearchRead (offset st) (BATCH_LIMIT cfg)
                                              (entry_window cfg w)
                                            :: page_events float_repr cfg nr a)
                     ∧ dict_get "id" row = Some (VInt (rec_id r))).
    { intros r Hr. exists (sanitize_record_for_bq float_repr (items r)).
      split; [|reflexivity].
      rewrite rows_sent_app. apply elem_of_app. right.
      change (SearchRead (offset st) (BATCH_LIMIT cfg) (entry_window cfg w)
              :: page_events float_repr cfg nr a)
        with ([SearchRead (offset st) (BATCH_LIMIT cfg) (entry_window cfg w)]
              ++ page_events float_repr cfg nr a).
      rewrite rows_sent_app. apply elem_of_app. right.
      rewrite rows_sent_page_events. unfold sanitized_of.
      change (map ?f ?l) with (f <$> l). apply list_elem_of_fmap. by exists r. }
    destruct a as [errors|]; simpl; [|apply Hkeep].
    rewrite add_ids_union, elem_of_union, elem_of_list_to_set.
    intros [Hx | Hx]; [by apply Hkeep|]. right.
    change (map rec_id ?l) with (rec_id <$> l) in Hx.
    apply list_elem_of_fmap in Hx as (r & -> & Hr). apply Hnew.
    destruct (nonempty errors); [|done].
    eapply elem_of_sublist; [exact Hr|apply succeeded_of_sublist].
Qed.

End MarkedIds.

Lemma marked_ids_were_listed_or_sent_witness :
  ∃ why st tr,
    run_sync sample_float_repr (sample_config 10) world_three_orders 100 []
    = (Some (Synced why st), tr)
    ∧ ∀ x, x ∈ existing_ids st →
           x ∈ entry_existing (sample_config 10) world_three_orders
           ∨ ∃ row, row ∈ rows_sent tr ∧ dict_get "id" row = Some (VInt x).
Proof.
  destruct (run_sync sample_float_repr (sample_config 10) world_three_orders 100 [])
    as [[[|why st]|] tr] eqn:Hout.
  - vm_compute in Hout. discriminate.
  - exists why, st, tr. split; [reflexivity|].
    exact (marked_ids_were_listed_or_sent sample_float_repr (sample_config 10)
             world_three_orders 100 why st tr Hout).
  - vm_compute in Hout. discriminate.
Defined.
